(** * CRANE STOCK: the prize inventory of [App.tsx] and [PrizeFormModal.tsx]

    A shallow embedding of the inventory state, its mutation handlers, the
    save / export / import pipeline, the statistics and the sorted view of
    [src/App.tsx], and of the edit form and the image resizing of
    [src/components/PrizeFormModal.tsx].

    Conventions of the embedding.
    - A JavaScript string is a [string] holding the UTF-8 bytes of a
      well-formed text; property names and JSON punctuation are ASCII.
    - An integral JavaScript number (a quantity, a pixel dimension, an array
      index) is a [Z]; the one place where the program divides,
      [resizeImage], computes on binary64 floats ([PrimFloat]), which is the
      arithmetic of a JavaScript number, and the sums of the statistics
      are [JS.number]s, added as binary64 adds: exactly up to [2 ^ 53],
      rounded beyond.
    - React state is passed explicitly: a handler is a function from the
      state before to the state after, and the answers of the platform
      ([confirm], the outcome of [localStorage.setItem], the events of an
      [Image]) are arguments of the handler.
    - [JSON.stringify] and [JSON.parse] are written out; the built-ins that
      depend on Unicode tables, on the locale or on the image codec
      ([trim], [toLowerCase], [localeCompare], [Date], [toDataURL]) are
      variables of the sections that use them.

    The first part holds the definitions, in the order of the sources; the
    second part holds the properties. *)

From Stdlib Require Import ZArith String Ascii List Floats Uint63 Lia.
From Stdlib Require Import DecimalString DecimalPos DecimalN.
From stdpp Require Import gmap strings list sorting.

Local Open Scope string_scope.
Local Open Scope list_scope.
Local Open Scope Z_scope.

(** ** [types.ts]: the record the two components exchange *)

Module Types.

(** Modelled from the spec: the declarations of [types.ts] ([Prize],
    [PrizeCategory], [Manufacturer]), which both components import. A
    record is one acquired item with an [id], a [name], an integer
    [quantity], an [acquisitionDate], a [category] and a [manufacturer]
    out of fixed sets of names (strings at run time), and an optional
    [photo] and optional [notes]; these are the eight properties
    [handleSubmit] writes. *)
Record Prize : Type := mkPrize {
  id : string;
  name : string;
  quantity : Z;
  acquisitionDate : string;
  category : string;
  manufacturer : string;
  photo : option string;
  notes : option string
}.

#[global] Instance Prize_eq_dec : EqDecision Prize.
Proof. solve_decision. Defined.

End Types.

Import Types.

(** The object spread [{ ...p, quantity: newQuantity }]. *)
Definition with_quantity (p : Prize) (newQuantity : Z) : Prize :=
  {| id := id p; name := name p; quantity := newQuantity;
     acquisitionDate := acquisitionDate p; category := category p;
     manufacturer := manufacturer p; photo := photo p; notes := notes p |}.

(** ** JavaScript built-ins on arrays *)

Module JS.

(** [Array.prototype.findIndex]: the first index whose element satisfies
    the predicate, [-1] when there is none. *)
Fixpoint findIndex {A} (f : A -> bool) (l : list A) : Z :=
  match l with
  | [] => -1
  | x :: l' => if f x then 0 else
      let i := findIndex f l' in if i <? 0 then -1 else i + 1
  end.

(** [a || d] on a number: [0] is falsy, and so is a missing value. *)
Definition or_num (a : option Z) (d : Z) : Z :=
  match a with
  | Some v => if v =? 0 then d else v
  | None => d
  end.

(** [a || d] on a string: the empty string is falsy, and so is a missing
    value. *)
Definition or_str (a : option string) (d : string) : string :=
  match a with
  | Some s => if String.eqb s "" then d else s
  | None => d
  end.

(** The numbers that sums of quantities are: the integral binary64
    values, the two infinities and [NaN]. *)
Inductive number : Type :=
| finite (z : Z)
| infinity (negative : bool)
| NaN.

(** An integer rounded to 53 significant bits, to the nearest and to the
    even one of two nearest: up to [2 ^ 53] every integer is a number. *)
Definition round (z : Z) : Z :=
  let m := Z.abs z in
  if m <=? 2 ^ 53 then z
  else
    let e := Z.log2 m - 52 in
    let q := Z.shiftr m e in
    let r := Z.land m (Z.ones e) in
    let half := 2 ^ (e - 1) in
    let q' := if (half <? r) || ((r =? half) && Z.odd q) then q + 1 else q in
    Z.sgn z * (q' * 2 ^ e).

(** The number nearest to an integer; from [2 ^ 1024] on it is infinite. *)
Definition to_number (z : Z) : number :=
  let r := round z in
  if 2 ^ 1024 <=? Z.abs r then infinity (r <? 0) else finite r.

(** [a + b] on numbers: the exact sum, rounded. *)
Definition add (a b : number) : number :=
  match a, b with
  | NaN, _ | _, NaN => NaN
  | infinity s, infinity t => if Bool.eqb s t then infinity s else NaN
  | infinity s, finite _ | finite _, infinity s => infinity s
  | finite x, finite y => to_number (x + y)
  end.

(** [a || 0] on a number: [0] and [NaN] are falsy. *)
Definition or_zero (a : number) : number :=
  match a with
  | NaN => finite 0
  | _ => a
  end.

(** The property names every object literal inherits from
    [Object.prototype]. *)
Definition Object_prototype : list string :=
  ["constructor"; "hasOwnProperty"; "isPrototypeOf"; "propertyIsEnumerable";
   "toLocaleString"; "toString"; "valueOf"; "__proto__";
   "__defineGetter__"; "__defineSetter__"; "__lookupGetter__"; "__lookupSetter__"].

End JS.

(** ** The JSON text format: [JSON.stringify] and [JSON.parse]

    The two built-ins the program saves, exports and imports with, after
    ECMA-262 (SerializeJSONProperty, QuoteJSONString and the JSON grammar).
    A number without fraction and exponent is an integer [Num]; any other
    number literal is kept as its text ([Frac]), the program computes with
    none. An object is the list of its members in source order. *)

Module JSON.

#[local] Set Warnings "-register-all".

Inductive value : Type :=
| Null
| Bool (b : bool)
| Num (z : Z)
| Frac (literal : string)
| Str (s : string)
| Arr (items : list value)
| Obj (members : list (string * value)).

Definition dquote : ascii := "034"%char.
Definition backslash : ascii := "\"%char.
Definition newline : ascii := "010"%char.

(** *** Printing *)

Definition hex_digit (n : N) : ascii :=
  match n with
  | 0 => "0" | 1 => "1" | 2 => "2" | 3 => "3" | 4 => "4" | 5 => "5"
  | 6 => "6" | 7 => "7" | 8 => "8" | 9 => "9" | 10 => "a" | 11 => "b"
  | 12 => "c" | 13 => "d" | 14 => "e" | _ => "f"
  end%N%char.

(** QuoteJSONString on one character: the short escapes, [\u00xx] for the
    other control characters, every other character as it is. *)
Definition quote_char (c : ascii) : string :=
  let n := N_of_ascii c in
  if (n =? 8)%N then "\b"
  else if (n =? 9)%N then "\t"
  else if (n =? 10)%N then "\n"
  else if (n =? 12)%N then "\f"
  else if (n =? 13)%N then "\r"
  else if (n =? 34)%N then String backslash (String dquote "")
  else if (n =? 92)%N then "\\"
  else if (n <? 32)%N
       then "\u00" +:+ String (hex_digit (n / 16)) (String (hex_digit (n mod 16)) "")
  else String c "".

Fixpoint quote_body (s : string) : string :=
  match s with
  | EmptyString => ""
  | String c r => quote_char c +:+ quote_body r
  end.

Definition quote (s : string) : string :=
  String dquote (quote_body s +:+ String dquote "").

(** Number::toString on an integer. *)
Definition decimal (n : N) : string := NilZero.string_of_uint (N.to_uint n).

Definition number (z : Z) : string :=
  if z <? 0 then String "-" (decimal (Z.abs_N z)) else decimal (Z.abs_N z).

(** What stands before the first item and before the closing bracket. *)
Definition break (gap indent : string) : string :=
  if String.eqb gap "" then "" else String newline indent.

(** What stands between two items. *)
Definition separator (gap indent : string) : string :=
  String "," (break gap indent).

(** What stands between a key and its value. *)
Definition colon (gap : string) : string :=
  if String.eqb gap "" then ":" else ": ".

Fixpoint serialize (gap indent : string) (v : value) {struct v} : string :=
  match v with
  | Null => "null"
  | Bool true => "true"
  | Bool false => "false"
  | Num z => number z
  | Frac literal => literal
  | Str s => quote s
  | Arr [] => "[]"
  | Arr items =>
      let stepback := indent in
      let indent := indent +:+ gap in
      "[" +:+ break gap indent
        +:+ String.concat (separator gap indent)
              (List.map (serialize gap indent) items)
        +:+ break gap stepback +:+ "]"
  | Obj [] => "{}"
  | Obj members =>
      let stepback := indent in
      let indent := indent +:+ gap in
      "{" +:+ break gap indent
        +:+ String.concat (separator gap indent)
              (List.map (fun m => let '(k, x) := m in
                           quote k +:+ colon gap +:+ serialize gap indent x)
                        members)
        +:+ break gap stepback +:+ "}"
  end.

Fixpoint spaces (n : nat) : string :=
  match n with
  | O => ""
  | S n' => String " " (spaces n')
  end.

(** [JSON.stringify(v, null, space)]; [space = 0] is [JSON.stringify(v)]. *)
Definition stringify (v : value) (space : nat) : string :=
  serialize (spaces (Nat.min space 10)) "" v.

(** *** Parsing *)

Definition is_ws (c : ascii) : bool :=
  let n := N_of_ascii c in
  ((n =? 32) || (n =? 9) || (n =? 10) || (n =? 13))%N.

Fixpoint skip_ws (s : string) : string :=
  match s with
  | String c r => if is_ws c then skip_ws r else s
  | EmptyString => s
  end.

Definition is_digit (c : ascii) : bool :=
  let n := N_of_ascii c in ((48 <=? n) && (n <=? 57))%N.

Definition hex_value (c : ascii) : option N :=
  let n := N_of_ascii c in
  if ((48 <=? n) && (n <=? 57))%N then Some (n - 48)%N
  else if ((97 <=? n) && (n <=? 102))%N then Some (n - 87)%N
  else if ((65 <=? n) && (n <=? 70))%N then Some (n - 55)%N
  else None.

Definition hex4 (a b c d : ascii) : option N :=
  match hex_value a, hex_value b, hex_value c, hex_value d with
  | Some x, Some y, Some z, Some w => Some (((x * 16 + y) * 16 + z) * 16 + w)%N
  | _, _, _, _ => None
  end.

(** The UTF-8 bytes of a code point or, for a lone surrogate, of the code
    unit. *)
Definition utf8 (cp : N) : string :=
  let byte n := ascii_of_N n in
  (if cp <? 128 then String (byte cp) ""
   else if cp <? 2048 then
     String (byte (192 + cp / 64)) (String (byte (128 + cp mod 64)) "")
   else if cp <? 65536 then
     String (byte (224 + cp / 4096))
       (String (byte (128 + (cp / 64) mod 64)) (String (byte (128 + cp mod 64)) ""))
   else
     String (byte (240 + cp / 262144))
       (String (byte (128 + (cp / 4096) mod 64))
          (String (byte (128 + (cp / 64) mod 64)) (String (byte (128 + cp mod 64)) ""))))%N.

Definition simple_escape (e : ascii) : option ascii :=
  let n := N_of_ascii e in
  (if n =? 34 then Some dquote
   else if n =? 92 then Some backslash
   else if n =? 47 then Some "/"%char
   else if n =? 98 then Some "008"%char
   else if n =? 102 then Some "012"%char
   else if n =? 110 then Some "010"%char
   else if n =? 114 then Some "013"%char
   else if n =? 116 then Some "009"%char
   else None)%N.

Definition cons_chars (pre : string) (r : option (string * string)) :
    option (string * string) :=
  match r with
  | Some (s, rest) => Some (pre +:+ s, rest)
  | None => None
  end.

(** The characters of a string literal after its opening quote, up to and
    including the closing quote: the text denoted and the input left. *)
Fixpoint parse_chars (s : string) : option (string * string) :=
  match s with
  | EmptyString => None
  | String c r =>
      if Ascii.eqb c dquote then Some ("", r)
      else if Ascii.eqb c backslash then
        match r with
        | EmptyString => None
        | String e r1 =>
            match simple_escape e with
            | Some ch => cons_chars (String ch "") (parse_chars r1)
            | None =>
                if Ascii.eqb e "u" then
                  match r1 with
                  | String h1 (String h2 (String h3 (String h4 r2))) =>
                      match hex4 h1 h2 h3 h4 with
                      | None => None
                      | Some hi =>
                          let alone := cons_chars (utf8 hi) (parse_chars r2) in
                          if ((55296 <=? hi) && (hi <=? 56319))%N then
                            match r2 with
                            | String b (String u (String l1 (String l2
                                (String l3 (String l4 r3))))) =>
                                if Ascii.eqb b backslash && Ascii.eqb u "u" then
                                  match hex4 l1 l2 l3 l4 with
                                  | Some lo =>
                                      if ((56320 <=? lo) && (lo <=? 57343))%N then
                                        cons_chars
                                          (utf8 (65536 + (hi - 55296) * 1024
                                                   + (lo - 56320))%N)
                                          (parse_chars r3)
                                      else alone
                                  | None => alone
                                  end
                                else alone
                            | _ => alone
                            end
                          else alone
                      end
                  | _ => None
                  end
                else None
            end
        end
      else if (N_of_ascii c <? 32)%N then None
      else cons_chars (String c "") (parse_chars r)
  end.

(** The longest prefix of digits, and the input after it. *)
Fixpoint take_digits (s : string) : string * string :=
  match s with
  | String c r =>
      if is_digit c then let '(ds, rest) := take_digits r in (String c ds, rest)
      else ("", s)
  | EmptyString => ("", s)
  end.

Fixpoint digits_value (acc : N) (ds : string) : N :=
  match ds with
  | String c r => digits_value (10 * acc + (N_of_ascii c - 48))%N r
  | EmptyString => acc
  end.

Definition is_empty (s : string) : bool :=
  match s with EmptyString => true | _ => false end.

(** [starts c s]: the input after the character [c], when [s] starts
    with it. *)
Definition starts (c : ascii) (s : string) : option string :=
  match s with
  | String a r => if Ascii.eqb a c then Some r else None
  | EmptyString => None
  end.

(** [expect w s]: the input after the word [w], when [s] starts with it. *)
Fixpoint expect (w s : string) : option string :=
  match w with
  | EmptyString => Some s
  | String a w' =>
      match starts a s with
      | Some s' => expect w' s'
      | None => None
      end
  end.

(** [int] of the grammar has no leading zero. *)
Definition leading_zero (int : string) : bool :=
  match int with
  | String c (String _ _) => Ascii.eqb c "0"
  | _ => false
  end.

(** A number literal: [-? int frac? exp?]. *)
Definition parse_number (s : string) : option (value * string) :=
  let '(sign, s1) :=
    match starts "-" s with
    | Some r => ("-", r)
    | None => ("", s)
    end in
  let '(int, s2) := take_digits s1 in
  if is_empty int || leading_zero int then None else
  let frac :=
    match starts "." s2 with
    | Some r =>
        let '(ds, s3) := take_digits r in
        if is_empty ds then None else Some (String "." ds, s3)
    | None => Some ("", s2)
    end in
  match frac with
  | None => None
  | Some (frac, s3) =>
      let exp :=
        match s3 with
        | String e r =>
            if Ascii.eqb e "e" || Ascii.eqb e "E" then
              let '(esign, r1) :=
                match starts "+" r, starts "-" r with
                | Some r', _ => ("+", r')
                | None, Some r' => ("-", r')
                | None, None => ("", r)
                end in
              let '(ds, s4) := take_digits r1 in
              if is_empty ds then None else Some (String e (esign +:+ ds), s4)
            else Some ("", s3)
        | EmptyString => Some ("", s3)
        end in
      match exp with
      | None => None
      | Some (exp, s4) =>
          if is_empty frac && is_empty exp then
            let n := Z.of_N (digits_value 0 int) in
            Some (Num (if is_empty sign then n else - n), s4)
          else Some (Frac (sign +:+ int +:+ frac +:+ exp), s4)
      end
  end.

(** A value, the items of an array after the first bracket, and the members
    of an object after the first brace. Every call spends one unit of
    [fuel]; twice the length of the input and one more is enough. *)
Fixpoint parse_value (fuel : nat) (s : string) {struct fuel} :
    option (value * string) :=
  match fuel with
  | O => None
  | S fuel =>
      match skip_ws s with
      | EmptyString => None
      | String c r =>
          if Ascii.eqb c "[" then
            match starts "]" (skip_ws r) with
            | Some r' => Some (Arr [], r')
            | None =>
                match parse_items fuel (skip_ws r) with
                | Some (items, r') => Some (Arr items, r')
                | None => None
                end
            end
          else if Ascii.eqb c "{" then
            match starts "}" (skip_ws r) with
            | Some r' => Some (Obj [], r')
            | None =>
                match parse_members fuel (skip_ws r) with
                | Some (members, r') => Some (Obj members, r')
                | None => None
                end
            end
          else if Ascii.eqb c dquote then
            match parse_chars r with
            | Some (str, r') => Some (Str str, r')
            | None => None
            end
          else if Ascii.eqb c "t" then
            match expect "rue" r with
            | Some r' => Some (Bool true, r')
            | None => None
            end
          else if Ascii.eqb c "f" then
            match expect "alse" r with
            | Some r' => Some (Bool false, r')
            | None => None
            end
          else if Ascii.eqb c "n" then
            match expect "ull" r with
            | Some r' => Some (Null, r')
            | None => None
            end
          else parse_number (String c r)
      end
  end
with parse_items (fuel : nat) (s : string) {struct fuel} :
    option (list value * string) :=
  match fuel with
  | O => None
  | S fuel =>
      match parse_value fuel s with
      | None => None
      | Some (v, r) =>
          match starts "," (skip_ws r), starts "]" (skip_ws r) with
          | Some r', _ =>
              match parse_items fuel r' with
              | Some (vs, r'') => Some (v :: vs, r'')
              | None => None
              end
          | None, Some r' => Some ([v], r')
          | None, None => None
          end
      end
  end
with parse_members (fuel : nat) (s : string) {struct fuel} :
    option (list (string * value) * string) :=
  match fuel with
  | O => None
  | S fuel =>
      match starts dquote (skip_ws s) with
      | None => None
      | Some r =>
          match parse_chars r with
          | None => None
          | Some (k, r1) =>
              match starts ":" (skip_ws r1) with
              | None => None
              | Some r2 =>
                  match parse_value fuel r2 with
                  | None => None
                  | Some (v, r3) =>
                      match starts "," (skip_ws r3), starts "}" (skip_ws r3) with
                      | Some r4, _ =>
                          match parse_members fuel r4 with
                          | Some (ms, r5) => Some ((k, v) :: ms, r5)
                          | None => None
                          end
                      | None, Some r4 => Some ([(k, v)], r4)
                      | None, None => None
                      end
                  end
              end
          end
      end
  end.

(** [JSON.parse]: one value, then nothing but white space. [None] is the
    [SyntaxError] the built-in throws. *)
Definition parse (s : string) : option value :=
  match parse_value (S (2 * String.length s)) s with
  | Some (v, r) => if is_empty (skip_ws r) then Some v else None
  | None => None
  end.

(** [Array.isArray] on a parsed value. *)
Definition isArray (v : value) : bool :=
  match v with
  | Arr _ => true
  | _ => false
  end.

(** Property access on a parsed object: the last member with the key. *)
Fixpoint get (k : string) (members : list (string * value)) : option value :=
  match members with
  | [] => None
  | (k', v) :: ms =>
      match get k ms with
      | Some v' => Some v'
      | None => if String.eqb k' k then Some v else None
      end
  end.

End JSON.

(** ** [App.tsx]: the collection and its handlers *)

Module App.

Definition prizeCategories : list string :=
  ["マスコット"; "ぬいぐるみ"; "フィギュア"; "その他"].

(** *** A stored record as a JavaScript object

    The object [handleSubmit] builds, property by property in its order;
    [JSON.stringify] leaves out a property whose value is [undefined]. *)

Definition optional (k : string) (o : option string) : list (string * JSON.value) :=
  match o with
  | Some s => [(k, JSON.Str s)]
  | None => []
  end.

Definition toJSON (p : Prize) : JSON.value :=
  JSON.Obj ([("id", JSON.Str (id p));
             ("name", JSON.Str (name p));
             ("quantity", JSON.Num (quantity p));
             ("acquisitionDate", JSON.Str (acquisitionDate p));
             ("category", JSON.Str (category p));
             ("manufacturer", JSON.Str (manufacturer p))]
            ++ optional "photo" (photo p) ++ optional "notes" (notes p)).

Definition get_string (k : string) (ms : list (string * JSON.value)) : option string :=
  match JSON.get k ms with
  | Some (JSON.Str s) => Some s
  | _ => None
  end.

Definition get_number (k : string) (ms : list (string * JSON.value)) : option Z :=
  match JSON.get k ms with
  | Some (JSON.Num z) => Some z
  | _ => None
  end.

Definition get_optional (k : string) (ms : list (string * JSON.value)) :
    option (option string) :=
  match JSON.get k ms with
  | None => Some None
  | Some (JSON.Str s) => Some (Some s)
  | Some _ => None
  end.

(** A parsed value read at the type [Prize], which the program asserts
    without a check ([setPrizes(importedData)]): [None] when the value is
    not an object with these properties at these types, a collection the
    typed handlers below do not describe. *)
Definition fromJSON (v : JSON.value) : option Prize :=
  match v with
  | JSON.Obj ms =>
      i ← get_string "id" ms;
      n ← get_string "name" ms;
      q ← get_number "quantity" ms;
      d ← get_string "acquisitionDate" ms;
      c ← get_string "category" ms;
      m ← get_string "manufacturer" ms;
      ph ← get_optional "photo" ms;
      no ← get_optional "notes" ms;
      Some (mkPrize i n q d c m ph no)
  | _ => None
  end.

(** *** The state of the component and of the page around it *)

Inductive SaveStatus : Type := idle | saving | saved.

(** The four [alert] boxes of the component. *)
Inductive Alert : Type :=
| StorageFull      (* 【エラー】保存容量がいっぱいです！ *)
| ImportDone       (* インポート完了しました。 *)
| BadFileFormat    (* 不正なファイル形式です。 *)
| FileReadFailed.  (* ファイルの読み込みに失敗しました。 *)

(** The [useState] cells the handlers write, then the page: the
    [localStorage] slot ['crane-game-prizes'], the alerts shown so far, the
    collections captured by the pending 400 ms save timers (oldest first)
    and the number of pending 2 s timers that reset the save status. *)
Record State : Type := mkState {
  prizes : list Prize;
  isModalOpen : bool;
  prizeToEdit : option Prize;
  isDirty : bool;
  saveStatus : SaveStatus;
  showTools : bool;
  localStorage : option string;
  alerts : list Alert;
  saveTimers : list (list Prize);
  idleTimers : nat
}.

(** The first render, over what the slot of [localStorage] holds. *)
Definition initial (stored : option string) : State :=
  mkState [] false None false idle false stored [] [] 0.

Definition setPrizes (v : list Prize) (s : State) : State :=
  mkState v (isModalOpen s) (prizeToEdit s) (isDirty s) (saveStatus s)
    (showTools s) (localStorage s) (alerts s) (saveTimers s) (idleTimers s).

Definition setIsDirty (v : bool) (s : State) : State :=
  mkState (prizes s) (isModalOpen s) (prizeToEdit s) v (saveStatus s)
    (showTools s) (localStorage s) (alerts s) (saveTimers s) (idleTimers s).

Definition setSaveStatus (v : SaveStatus) (s : State) : State :=
  mkState (prizes s) (isModalOpen s) (prizeToEdit s) (isDirty s) v
    (showTools s) (localStorage s) (alerts s) (saveTimers s) (idleTimers s).

Definition setShowTools (v : bool) (s : State) : State :=
  mkState (prizes s) (isModalOpen s) (prizeToEdit s) (isDirty s) (saveStatus s)
    v (localStorage s) (alerts s) (saveTimers s) (idleTimers s).

Definition setIsModalOpen (v : bool) (s : State) : State :=
  mkState (prizes s) v (prizeToEdit s) (isDirty s) (saveStatus s)
    (showTools s) (localStorage s) (alerts s) (saveTimers s) (idleTimers s).

Definition setPrizeToEdit (v : option Prize) (s : State) : State :=
  mkState (prizes s) (isModalOpen s) v (isDirty s) (saveStatus s)
    (showTools s) (localStorage s) (alerts s) (saveTimers s) (idleTimers s).

Definition setItem (v : string) (s : State) : State :=
  mkState (prizes s) (isModalOpen s) (prizeToEdit s) (isDirty s) (saveStatus s)
    (showTools s) (Some v) (alerts s) (saveTimers s) (idleTimers s).

Definition alert (a : Alert) (s : State) : State :=
  mkState (prizes s) (isModalOpen s) (prizeToEdit s) (isDirty s) (saveStatus s)
    (showTools s) (localStorage s) (alerts s ++ [a]) (saveTimers s) (idleTimers s).

Definition setSaveTimers (v : list (list Prize)) (s : State) : State :=
  mkState (prizes s) (isModalOpen s) (prizeToEdit s) (isDirty s) (saveStatus s)
    (showTools s) (localStorage s) (alerts s) v (idleTimers s).

Definition setIdleTimers (v : nat) (s : State) : State :=
  mkState (prizes s) (isModalOpen s) (prizeToEdit s) (isDirty s) (saveStatus s)
    (showTools s) (localStorage s) (alerts s) (saveTimers s) v.

(** *** Loading and saving *)


(** What [localStorage.setItem] does with the text: it stores it, or
    throws because the quota is exceeded. *)
Inductive SetItem : Type := Stored | QuotaExceeded.

(** [handleSaveToStorage]: the click. The timer it starts captures the
    collection of this render. *)
Definition handleSaveToStorage (s : State) : State :=
  setSaveTimers (saveTimers s ++ [prizes s]) (setSaveStatus saving s).

(** The body of the 400 ms timer, for the oldest pending one. *)
Definition saveTimeout (outcome : SetItem) (s : State) : State :=
  match saveTimers s with
  | [] => s
  | captured :: later =>
      let s := setSaveTimers later s in
      match outcome with
      | Stored =>
          let s := setItem (JSON.stringify (JSON.Arr (toJSON <$> captured)) 0) s in
          let s := setIsDirty false s in
          let s := setSaveStatus saved s in
          setIdleTimers (S (idleTimers s)) s
      | QuotaExceeded =>
          setSaveStatus idle (alert StorageFull s)
      end
  end.

(** The body of the 2 s timer. *)
Definition idleTimeout (s : State) : State :=
  match idleTimers s with
  | O => s
  | S n => setIdleTimers n (setSaveStatus idle s)
  end.

(** *** Export and import *)

(** [handleExport]: the name and the text of the file offered for
    download; [today] is [new Date().toISOString().split('T')[0]]. *)
Definition exportDocument (prizes : list Prize) : string :=
  JSON.stringify (JSON.Arr (toJSON <$> prizes)) 2.

Definition handleExport (today : string) (s : State) : (string * string) * State :=
  (("crane_game_inventory_" +:+ today +:+ ".json", exportDocument (prizes s)),
   setShowTools false s).

(** [handleImport] with the [onload] of its reader: [content] is the text
    of the chosen file, [confirmed] the answer to the [confirm] box, asked
    only for an array. The handler passes the array to [setPrizes] as it
    is. [None]: the array holds a value that is no [Prize], and the
    collection is no list of records any more; [handleImport_cells] gives
    the other cells then too. *)
Definition handleImport (content : string) (confirmed : bool) (s : State) :
    option State :=
  let s := setShowTools false s in
  match JSON.parse content with
  | Some (JSON.Arr importedData) =>
      if confirmed then
        imported ← mapM fromJSON importedData;
        Some (alert ImportDone (setIsDirty true (setPrizes imported s)))
      else Some s
  | Some _ => Some (alert BadFileFormat s)
  | None => Some (alert FileReadFailed s)
  end.

(** The cells other than the collection after [handleImport], for every
    text of a file: what the handler does to them does not depend on what
    the array holds. *)
Definition handleImport_cells (content : string) (confirmed : bool) (s : State) : State :=
  let s := setShowTools false s in
  match JSON.parse content with
  | Some (JSON.Arr _) =>
      if confirmed then alert ImportDone (setIsDirty true s) else s
  | Some _ => alert BadFileFormat s
  | None => alert FileReadFailed s
  end.

(** *** The mutation handlers *)

Definition handleClearAll (confirmed : bool) (s : State) : State :=
  if confirmed then setShowTools false (setIsDirty true (setPrizes [] s)) else s.

(** The updater [handleSavePrize] passes to [setPrizes]. *)
Definition savePrize (prize : Prize) (prevPrizes : list Prize) : list Prize :=
  let existingIndex :=
    JS.findIndex (fun p => String.eqb (id p) (id prize)) prevPrizes in
  if existingIndex >? -1
  then <[Z.to_nat existingIndex := prize]> prevPrizes
  else prevPrizes ++ [prize].

Definition handleSavePrize (prize : Prize) (s : State) : State :=
  setIsDirty true (setPrizes (savePrize prize (prizes s)) s).

(** The updater of [handleDeletePrize]. *)
Definition deletePrize (prizeId : string) (prevPrizes : list Prize) : list Prize :=
  List.filter (fun p => negb (String.eqb (id p) prizeId)) prevPrizes.

Definition handleDeletePrize (prizeId : string) (confirmed : bool) (s : State) : State :=
  if confirmed then setIsDirty true (setPrizes (deletePrize prizeId (prizes s)) s)
  else s.

(** The updater of [handleQuantityChange]. *)
Definition quantityChange (prizeId : string) (newQuantity : Z)
    (prevPrizes : list Prize) : list Prize :=
  (fun p => if String.eqb (id p) prizeId
            then with_quantity p newQuantity else p) <$> prevPrizes.

Definition handleQuantityChange (prizeId : string) (newQuantity : Z) (s : State) : State :=
  setIsDirty true (setPrizes (quantityChange prizeId newQuantity (prizes s)) s).

(** *** The form *)

(** The [onEdit] of a card or a row, the floating button, and the
    [onClose] handed to the form. *)
Definition onEdit (p : Prize) (s : State) : State :=
  setIsModalOpen true (setPrizeToEdit (Some p) s).

Definition onAdd (s : State) : State :=
  setIsModalOpen true (setPrizeToEdit None s).

Definition onClose (s : State) : State :=
  setPrizeToEdit None (setIsModalOpen false s).

(** *** What happens to the component *)

Inductive Event : Type :=
| SavePrize (prize : Prize)
| DeletePrize (prizeId : string) (confirmed : bool)
| QuantityChange (prizeId : string) (newQuantity : Z)
| ClearAll (confirmed : bool)
| Import (content : string) (confirmed : bool)
| Export (today : string)
| SaveClick
| SaveTimeout (outcome : SetItem)
| IdleTimeout
| Edit (p : Prize)
| Add
| Close.

Definition handle (e : Event) (s : State) : option State :=
  match e with
  | SavePrize prize => Some (handleSavePrize prize s)
  | DeletePrize prizeId confirmed => Some (handleDeletePrize prizeId confirmed s)
  | QuantityChange prizeId newQuantity => Some (handleQuantityChange prizeId newQuantity s)
  | ClearAll confirmed => Some (handleClearAll confirmed s)
  | Import content confirmed => handleImport content confirmed s
  | Export today => Some (snd (handleExport today s))
  | SaveClick => Some (handleSaveToStorage s)
  | SaveTimeout outcome => Some (saveTimeout outcome s)
  | IdleTimeout => Some (idleTimeout s)
  | Edit p => Some (onEdit p s)
  | Add => Some (onAdd s)
  | Close => Some (onClose s)
  end.

(** *** Statistics *)

(** A value of [categoryCount]: a number, or the text that [+] makes of an
    inherited property and a quantity; [inherited] is what reading an
    inherited name gives as long as nothing is stored under it. *)
Inductive Count : Type :=
| counted (n : JS.number)
| concatenated
| inherited.

(** [acc[cat]] *)
Definition get (acc : gmap string Count) (cat : string) : option Count :=
  match acc !! cat with
  | Some c => Some c
  | None => if bool_decide (cat ∈ JS.Object_prototype) then Some inherited else None
  end.

(** [(c || 0) + quantity]: a function, an object and a text are truthy,
    and [+] turns them and the quantity into one text. *)
Definition plus (c : option Count) (quantity : Z) : Count :=
  match c with
  | Some (counted n) => counted (JS.add (JS.or_zero n) (JS.to_number quantity))
  | Some concatenated | Some inherited => concatenated
  | None => counted (JS.add (JS.finite 0) (JS.to_number quantity))
  end.

(** [acc[cat] = c] for a [c] that is no object: the setter of [__proto__]
    ignores it. *)
Definition set (acc : gmap string Count) (cat : string) (c : Count) : gmap string Count :=
  if String.eqb cat "__proto__" then acc else <[cat := c]> acc.

Record Stats : Type := mkStats {
  totalTypes : Z;
  totalQuantity : JS.number;
  categoryCount : gmap string Count
}.

Definition stats (prizes : list Prize) : Stats :=
  {| totalTypes := Z.of_nat (length prizes);
     totalQuantity :=
       fold_left (fun sum p => JS.add sum (JS.to_number (quantity p))) prizes (JS.finite 0);
     categoryCount :=
       fold_left (fun acc p => set acc (category p) (plus (get acc (category p)) (quantity p)))
                 prizes ∅ |}.

(** What the summary shows for a category:
    [stats.categoryCount[cat] || 0]. *)
Definition shownCount (s : Stats) (cat : string) : Count :=
  match get (categoryCount s) cat with
  | Some (counted n) => counted (JS.or_zero n)
  | Some c => c
  | None => counted (JS.finite 0)
  end.

(** *** The filtered and sorted view *)

Inductive SortOrder : Type := date_desc | name_asc | name_desc.

(** [Array.prototype.sort] with a comparison function: a stable sort. An
    element is put before the first of the elements after it that it is
    not after ([compare] not positive), so elements that compare as equal
    keep their order. *)
Definition not_after {A} (compare : A -> A -> Z) : relation A :=
  fun a b => compare a b <= 0.

Fixpoint insert {A} (compare : A -> A -> Z) (x : A) (l : list A) : list A :=
  match l with
  | [] => [x]
  | y :: l' => if compare x y <=? 0 then x :: l else y :: insert compare x l'
  end.

Definition sort {A} (compare : A -> A -> Z) (l : list A) : list A :=
  foldr (insert compare) [] l.

(** [s.includes(t)] *)
Definition includes (s t : string) : bool :=
  match String.index 0 t s with
  | Some _ => true
  | None => false
  end.

Section View.

(** The three built-ins that depend on Unicode tables and on the locale:
    [String.prototype.toLowerCase], [localeCompare(_, 'ja')], and the time
    value of [new Date(_)], [None] for [NaN]. *)
Variable toLowerCase : string -> string.
Variable localeCompare : string -> string -> Z.
Variable getTime : string -> option Z.

(** [new Date(x).getTime() - new Date(y).getTime()]; the sort reads a [NaN]
    as [0]. *)
Definition time_difference (x y : string) : Z :=
  match getTime x, getTime y with
  | Some tx, Some ty => tx - ty
  | _, _ => 0
  end.

Definition filteredAndSortedPrizes (prizes : list Prize) (searchTerm : string)
    (selectedCategory : string) (sortOrder : SortOrder) : list Prize :=
  let filtered :=
    List.filter (fun prize =>
      let nameMatch := includes (toLowerCase (name prize)) (toLowerCase searchTerm) in
      let categoryMatch :=
        String.eqb selectedCategory "すべて" || String.eqb (category prize) selectedCategory in
      nameMatch && categoryMatch) prizes in
  match sortOrder with
  | name_asc => sort (fun a b => localeCompare (name a) (name b)) filtered
  | name_desc => sort (fun a b => localeCompare (name b) (name a)) filtered
  | date_desc =>
      sort (fun a b => time_difference (acquisitionDate b) (acquisitionDate a)) filtered
  end.

End View.

End App.

(** ** [PrizeFormModal.tsx]: the form and the photo *)

Module PrizeFormModal.

Definition prizeCategories : list string :=
  ["マスコット"; "ぬいぐるみ"; "フィギュア"; "その他"].

Definition prizeManufacturers : list string :=
  ["指定なし"; "バンダイナムコ"; "タイトー"; "SEGA FAVE"; "FuRyu"; "Parade"; "SK"; "その他"].

(** The [useState] cells of the form. *)
Record Form : Type := mkForm {
  name : string;
  quantity : Z;
  acquisitionDate : string;
  photo : string;
  isProcessingImage : bool;
  notes : string;
  category : string;
  manufacturer : string
}.

Definition initialForm : Form :=
  mkForm "" 1 "" "" false "" "その他" "指定なし".

Definition setPhoto (v : string) (f : Form) : Form :=
  mkForm (name f) (quantity f) (acquisitionDate f) v (isProcessingImage f)
    (notes f) (category f) (manufacturer f).

Definition setIsProcessingImage (v : bool) (f : Form) : Form :=
  mkForm (name f) (quantity f) (acquisitionDate f) (photo f) v
    (notes f) (category f) (manufacturer f).

Definition setQuantity (v : Z) (f : Form) : Form :=
  mkForm (name f) v (acquisitionDate f) (photo f) (isProcessingImage f)
    (notes f) (category f) (manufacturer f).

Definition setName (v : string) (f : Form) : Form :=
  mkForm v (quantity f) (acquisitionDate f) (photo f) (isProcessingImage f)
    (notes f) (category f) (manufacturer f).

(** The effect that runs when the form opens ([isOpen] true); [today] is
    [new Date().toISOString().split('T')[0]]. *)
Definition openForm (prizeToEdit : option Prize) (today : string) (f : Form) : Form :=
  {| name := JS.or_str (Types.name <$> prizeToEdit) "";
     quantity := JS.or_num (Types.quantity <$> prizeToEdit) 1;
     acquisitionDate := JS.or_str (Types.acquisitionDate <$> prizeToEdit) today;
     photo := JS.or_str (prizeToEdit ≫= Types.photo) "";
     isProcessingImage := isProcessingImage f;
     notes := JS.or_str (prizeToEdit ≫= Types.notes) "";
     category := JS.or_str (Types.category <$> prizeToEdit) "その他";
     manufacturer := JS.or_str (Types.manufacturer <$> prizeToEdit) "指定なし" |}.

(** *** [resizeImage] *)

Definition MAX_WIDTH : Z := 600.
Definition MAX_HEIGHT : Z := 600.

(** A pixel count as a JavaScript number. *)
Definition number_of (z : Z) : float := PrimFloat.of_uint63 (Uint63.of_Z z).

(** The assignment [canvas.width = x] stores an [unsigned long]: the
    number truncated to an integer, modulo 2^32; [0] for what is not finite. *)
Definition unsigned_long (x : float) : Z :=
  match Prim2SF x with
  | S754_finite sign m e =>
      let magnitude :=
        match e with
        | Zneg p => Z.shiftr (Zpos m) (Zpos p)
        | _ => Z.shiftl (Zpos m) e
        end in
      (if sign then - magnitude else magnitude) mod 2 ^ 32
  | _ => 0
  end.

(** [side *= max / longer], on numbers. *)
Definition scale (side max longer : Z) : float :=
  (number_of side * (number_of max / number_of longer))%float.

(** The size of the canvas for an image of [width] by [height] pixels.
    The comparisons are between pixel counts, exact as numbers. *)
Definition canvasSize (width height : Z) : Z * Z :=
  if height <? width then
    if MAX_WIDTH <? width then
      (MAX_WIDTH, unsigned_long (scale height MAX_WIDTH width))
    else (width, height)
  else
    if MAX_HEIGHT <? height then
      (unsigned_long (scale width MAX_HEIGHT height), MAX_HEIGHT)
    else (width, height).

(** What the [Image] reports after [img.src = base64Str]. *)
Inductive ImageEvent : Type :=
| onload (width height : Z)
| onerror.

(** Where a promise stands once the image has reported. *)
Inductive Promise (A : Type) : Type :=
| resolved (a : A)
| rejected
| pending.
Arguments resolved {A} a.
Arguments rejected {A}.
Arguments pending {A}.

Section Photo.

(** [canvas.toDataURL('image/jpeg', 0.7)] after the image was drawn on a
    canvas of the given size; [None] when the call throws. *)
Variable toDataURL : string -> Z -> Z -> option string.

(** The promise of [resizeImage]. Its executor sets [img.onload], the only
    place that calls [resolve]: an exception in that handler is not the
    promise's, nothing handles the [error] event, and nothing calls
    [reject]. *)
Definition resizeImage (base64Str : string) (e : ImageEvent) : Promise string :=
  match e with
  | onload width height =>
      let '(w, h) := canvasSize width height in
      match toDataURL base64Str w h with
      | Some resizedBase64 => resolved resizedBase64
      | None => pending
      end
  | onerror => pending
  end.

(** [handlePhotoChange] with the [onloadend] of its reader: [base64] is the
    data URL of the chosen file. The code after the [await] runs when the
    promise is settled. *)
Definition handlePhotoChange (base64 : string) (e : ImageEvent) (f : Form) : Form :=
  let f := setIsProcessingImage true f in
  match resizeImage base64 e with
  | resolved compressed => setIsProcessingImage false (setPhoto compressed f)
  | rejected => setIsProcessingImage false (setPhoto base64 f)
  | pending => f
  end.

End Photo.

Section Submit.

(** [String.prototype.trim] *)
Variable trim : string -> string.

(** [handleSubmit]: the record handed to [onSave], [None] when the handler
    returns before; [now] is [Date.now().toString()]. *)
Definition handleSubmit (prizeToEdit : option Prize) (now : string) (f : Form) :
    option Prize :=
  if String.eqb (trim (name f)) "" || isProcessingImage f then None
  else Some (mkPrize
               (JS.or_str (Types.id <$> prizeToEdit) now)
               (name f)
               (quantity f)
               (acquisitionDate f)
               (category f)
               (manufacturer f)
               (Some (photo f))
               (Some (notes f))).

End Submit.

(** *** The controls of the form *)

Definition setAcquisitionDate (v : string) (f : Form) : Form :=
  mkForm (name f) (quantity f) v (photo f) (isProcessingImage f)
    (notes f) (category f) (manufacturer f).

Definition setNotes (v : string) (f : Form) : Form :=
  mkForm (name f) (quantity f) (acquisitionDate f) (photo f) (isProcessingImage f)
    v (category f) (manufacturer f).

Definition setCategory (v : string) (f : Form) : Form :=
  mkForm (name f) (quantity f) (acquisitionDate f) (photo f) (isProcessingImage f)
    (notes f) v (manufacturer f).

Definition setManufacturer (v : string) (f : Form) : Form :=
  mkForm (name f) (quantity f) (acquisitionDate f) (photo f) (isProcessingImage f)
    (notes f) (category f) v.

(** The [-] button: [setQuantity(Math.max(0, quantity - 1))]. *)
Definition decrement (f : Form) : Form :=
  setQuantity (Z.max 0 (quantity f - 1)) f.

(** The [+] button: [setQuantity(quantity + 1)]. *)
Definition increment (f : Form) : Form :=
  setQuantity (quantity f + 1) f.

(** What the user and the page do to the form: the opening effect, the
    inputs with the value typed or chosen, the two quantity buttons, the
    button that removes the photo, and a chosen photo with what its image
    reports. *)
Inductive Control : Type :=
| Opened (prizeToEdit : option Prize) (today : string)
| NameTyped (v : string)
| CategoryChosen (v : string)
| ManufacturerChosen (v : string)
| Decrement
| QuantityTyped (v : Z)
| Increment
| DateTyped (v : string)
| PhotoChosen (base64 : string) (e : ImageEvent)
| PhotoRemoved
| NotesTyped (v : string).

Definition control (toDataURL : string -> Z -> Z -> option string)
    (c : Control) (f : Form) : Form :=
  match c with
  | Opened prizeToEdit today => openForm prizeToEdit today f
  | NameTyped v => setName v f
  | CategoryChosen v => setCategory v f
  | ManufacturerChosen v => setManufacturer v f
  | Decrement => decrement f
  | QuantityTyped v => setQuantity v f
  | Increment => increment f
  | DateTyped v => setAcquisitionDate v f
  | PhotoChosen base64 e => handlePhotoChange toDataURL base64 e f
  | PhotoRemoved => setPhoto "" f
  | NotesTyped v => setNotes v f
  end.

End PrizeFormModal.

(** ** The form inside the component

    [App] renders the form with [onSave = handleSavePrize], its own
    [onClose] and its [prizeToEdit]: a submit that passes the checks saves
    the record and closes the form. *)
Definition submit (trim : string -> string) (now : string)
    (f : PrizeFormModal.Form) (s : App.State) : App.State :=
  match PrizeFormModal.handleSubmit trim (App.prizeToEdit s) now f with
  | Some prizeData => App.onClose (App.handleSavePrize prizeData s)
  | None => s
  end.

(** ** Notions the properties are stated with *)

(** The last record of a sequence of saves that carries the id [i]. *)
Fixpoint lastFor (i : string) (saves : list Prize) : option Prize :=
  match saves with
  | [] => None
  | r :: saves' =>
      match lastFor i saves' with
      | Some p => Some p
      | None => if String.eqb (id r) i then Some r else None
      end
  end.

(** A sequence of saves applied in order to a collection. *)
Definition saveAll (saves : list Prize) (c : list Prize) : list Prize :=
  fold_left (fun acc r => App.savePrize r acc) saves c.


(** The sum of the quantities of a list of records. *)
Definition sum_quantity (l : list Prize) : Z :=
  foldr (fun p acc => quantity p + acc) 0 l.

(** The sum of the magnitudes of the quantities: while it is at most
    [2 ^ 53], every sum of some of the quantities is a number. *)
Definition sum_magnitude (l : list Prize) : Z :=
  foldr (fun p acc => Z.abs (quantity p) + acc) 0 l.

(** The integer a value of the summary shows, when it shows one. *)
Definition shown_number (c : App.Count) : option Z :=
  match c with
  | App.counted (JS.finite z) => Some z
  | _ => None
  end.

(** The records of a category, in order. *)
Definition of_category (cat : string) (l : list Prize) : list Prize :=
  List.filter (fun p => String.eqb (category p) cat) l.






(** A comparison of names to run the view with: by length. *)
Definition by_length (a b : string) : Z :=
  Z.of_nat (String.length a) - Z.of_nat (String.length b).

(** Three records to run the handlers on. *)
Definition sample : list Prize :=
  [ mkPrize "1700000000000" "くま" 2 "2024-01-01" "ぬいぐるみ" "タイトー" (Some "") (Some "");
    mkPrize "1700000000001" "Figure A" 0 "2024-02-01" "フィギュア" "SEGA FAVE"
      (Some "data:image/jpeg;base64,/9j/4AAQ") (Some ("line 1" +:+ String JSON.newline "line 2"));
    mkPrize "1700000000002" "Mascots" 3 "" "マスコット" "指定なし" None None ].

(** A run of the component: the events handled one after the other. *)
Fixpoint run (events : list App.Event) (s : App.State) : option App.State :=
  match events with
  | [] => Some s
  | e :: later =>
      match App.handle e s with
      | Some s' => run later s'
      | None => None
      end
  end.


Definition is_confirmed_import (e : App.Event) : bool :=
  match e with
  | App.Import _ confirmed => confirmed
  | _ => false
  end.



(** A run of the form: the controls used one after the other. *)
Definition controls (toDataURL : string -> Z -> Z -> option string)
    (cs : list PrizeFormModal.Control) (f : PrizeFormModal.Form) : PrizeFormModal.Form :=
  fold_left (fun f c => PrizeFormModal.control toDataURL c f) cs f.

(** The controls that settle the promise of [resizeImage]: a chosen photo
    whose image loads and whose canvas is encoded. *)
Definition settles (toDataURL : string -> Z -> Z -> option string)
    (c : PrizeFormModal.Control) : bool :=
  match c with
  | PrizeFormModal.PhotoChosen base64 (PrizeFormModal.onload w h) =>
      match toDataURL base64 (fst (PrizeFormModal.canvasSize w h))
                             (snd (PrizeFormModal.canvasSize w h)) with
      | Some _ => true
      | None => false
      end
  | _ => false
  end.

(** The controls that bring a quantity into the form, with it. *)
Definition quantity_input (c : PrizeFormModal.Control) : option Z :=
  match c with
  | PrizeFormModal.Opened (Some p) _ => Some (quantity p)
  | PrizeFormModal.QuantityTyped v => Some v
  | _ => None
  end.

(** The time value of a stored record, 0 when its date is no date. *)
Definition time_of (getTime : string -> option Z) (p : Prize) : Z :=
  default 0 (getTime (acquisitionDate p)).

(** A time value to run the view with: the digits of the date read as one
    number, no time for a text without digits. *)
Definition digits_time (date : string) : option Z :=
  let digits := String.concat "" (List.map (fun c => String c "")
                  (List.filter JSON.is_digit (list_ascii_of_string date))) in
  if JSON.is_empty digits then None else Some (Z.of_N (JSON.digits_value 0 digits)).

(** The comparison that puts the greater key first. *)
Definition newer_first (key : Prize -> Z) (a b : Prize) : Z := key b - key a.

(** The categories the summary shows. *)
Definition shown_category (p : Prize) : bool :=
  bool_decide (category p ∈ App.prizeCategories).

(** * Properties *)

(** ** The upsert of [handleSavePrize] *)

Section Upsert.

Implicit Types (p prize r : Prize) (l prev c : list Prize).

Lemma findIndex_lower {A} (f : A -> bool) (l : list A) : -1 <= JS.findIndex f l.
Proof.
  induction l as [|x l IH]; simpl; [lia |].
  destruct (f x); [lia |].
  destruct (Z.ltb_spec (JS.findIndex f l) 0); lia.
Qed.

Lemma findIndex_none {A} (f : A -> bool) (l : list A) :
  JS.findIndex f l = -1 <-> Forall (fun x => f x = false) l.
Proof.
  induction l as [|x l IH]; simpl.
  - split; [constructor | reflexivity].
  - pose proof (findIndex_lower f l) as Hlow.
    destruct (f x) eqn:Hx.
    + split; [discriminate | inversion 1; congruence].
    + destruct (Z.ltb_spec (JS.findIndex f l) 0) as [Hlt | Hge].
      * split; [intros _ | reflexivity].
        constructor; [exact Hx |]. apply IH. lia.
      * split; [lia |]. inversion 1; subst.
        assert (JS.findIndex f l = -1) by (apply IH; assumption). lia.
Qed.

Lemma findIndex_found {A} (f : A -> bool) (l : list A) :
  0 <= JS.findIndex f l ->
  exists x, l !! Z.to_nat (JS.findIndex f l) = Some x /\ f x = true /\
    forall j y, (j < Z.to_nat (JS.findIndex f l))%nat -> l !! j = Some y -> f y = false.
Proof.
  induction l as [|x l IH]; simpl; [lia |].
  destruct (f x) eqn:Hx.
  - intros _. exists x. repeat split; [exact Hx |]. intros j y Hj. lia.
  - destruct (Z.ltb_spec (JS.findIndex f l) 0) as [Hlt | Hge]; [lia |].
    intros _. destruct (IH Hge) as (y & Hy & Hfy & Hbefore).
    exists y. replace (Z.to_nat (JS.findIndex f l + 1)) with (S (Z.to_nat (JS.findIndex f l))) by lia.
    repeat split; [exact Hy | exact Hfy |].
    intros [|j] z Hj Hz; simpl in Hz.
    + congruence.
    + apply (Hbefore j); [lia | exact Hz].
Qed.

(** The two branches of the updater, read off the collection. *)
Lemma savePrize_existing prize prev :
  id prize ∈ id <$> prev ->
  exists i p, prev !! i = Some p /\ id p = id prize /\
    (forall j q, (j < i)%nat -> prev !! j = Some q -> id q <> id prize) /\
    App.savePrize prize prev = <[i := prize]> prev.
Proof.
  intros Hin. unfold App.savePrize.
  set (f := fun p => String.eqb (id p) (id prize)).
  destruct (Z.eq_dec (JS.findIndex f prev) (-1)) as [Hnone | Hsome].
  - exfalso. apply findIndex_none in Hnone.
    apply list_elem_of_fmap in Hin as (q & Hq & Hqin).
    rewrite Forall_forall in Hnone.
    specialize (Hnone q Hqin). unfold f in Hnone.
    apply String.eqb_neq in Hnone. congruence.
  - pose proof (findIndex_lower f prev) as Hlow.
    destruct (findIndex_found f prev) as (x & Hx & Hfx & Hbefore); [lia |].
    exists (Z.to_nat (JS.findIndex f prev)), x.
    repeat split.
    + exact Hx.
    + apply String.eqb_eq. exact Hfx.
    + intros j q Hj Hq. apply String.eqb_neq. exact (Hbefore j q Hj Hq).
    + destruct (Z.gtb_spec (JS.findIndex f prev) (-1)); [reflexivity | lia].
Qed.

Lemma savePrize_fresh prize prev :
  id prize ∉ id <$> prev ->
  App.savePrize prize prev = prev ++ [prize].
Proof.
  intros Hnot. unfold App.savePrize.
  set (f := fun p => String.eqb (id p) (id prize)).
  assert (Hnone : JS.findIndex f prev = -1).
  { apply findIndex_none. rewrite Forall_forall. intros q Hq.
    unfold f. apply String.eqb_neq. intros Heq. apply Hnot.
    apply list_elem_of_fmap. exists q. split; [symmetry; exact Heq | exact Hq]. }
  rewrite Hnone. reflexivity.
Qed.

Lemma savePrize_ids prize prev :
  id <$> App.savePrize prize prev =
    if decide (id prize ∈ id <$> prev)
    then id <$> prev else (id <$> prev) ++ [id prize].
Proof.
  destruct (decide (id prize ∈ id <$> prev)) as [Hin | Hnot].
  - destruct (savePrize_existing prize prev Hin) as (i & p & Hi & Hid & _ & ->).
    rewrite list_fmap_insert. apply list_insert_id.
    rewrite list_lookup_fmap, Hi. simpl. congruence.
  - rewrite (savePrize_fresh prize prev Hnot).
    rewrite fmap_app. reflexivity.
Qed.

Lemma savePrize_elem prize prev p :
  NoDup (id <$> prev) ->
  p ∈ App.savePrize prize prev <->
    p = prize \/ (p ∈ prev /\ id p <> id prize).
Proof.
  intros Hnd.
  destruct (decide (id prize ∈ id <$> prev)) as [Hin | Hnot].
  - destruct (savePrize_existing prize prev Hin) as (i & q & Hi & Hid & _ & ->).
    assert (Huniq : forall j q', prev !! j = Some q' -> id q' = id prize -> j = i).
    { intros j q' Hj Hq'.
      eapply NoDup_lookup; [exact Hnd | |].
      - rewrite list_lookup_fmap, Hj. simpl. reflexivity.
      - rewrite list_lookup_fmap, Hi. simpl. congruence. }
    split.
    + intros Hp. apply list_elem_of_lookup in Hp as (j & Hj).
      destruct (decide (j = i)) as [-> | Hne].
      * rewrite list_lookup_insert_eq in Hj by (eapply lookup_lt_Some; eauto).
        left. congruence.
      * rewrite list_lookup_insert_ne in Hj by congruence.
        right. split; [apply list_elem_of_lookup; eauto |].
        intros Hq'. apply Hne. eapply Huniq; eauto.
    + intros [-> | [Hp Hne]].
      * apply list_elem_of_lookup. exists i.
        apply list_lookup_insert_eq. eapply lookup_lt_Some; eauto.
      * apply list_elem_of_lookup in Hp as (j & Hj).
        apply list_elem_of_lookup. exists j.
        rewrite list_lookup_insert_ne; [exact Hj |].
        intros <-. rewrite Hi in Hj. congruence.
  - rewrite (savePrize_fresh prize prev Hnot), elem_of_app, list_elem_of_singleton.
    split.
    + intros [Hp | ->]; [right | left; reflexivity].
      split; [exact Hp |]. intros Heq. apply Hnot. rewrite <- Heq.
      apply list_elem_of_fmap. eauto.
    + intros [-> | [Hp _]]; [right; reflexivity | left; exact Hp].
Qed.

Lemma savePrize_NoDup prize prev :
  NoDup (id <$> prev) -> NoDup (id <$> App.savePrize prize prev).
Proof.
  intros Hnd. rewrite savePrize_ids.
  destruct (decide (id prize ∈ id <$> prev)) as [Hin | Hnot]; [exact Hnd |].
  apply NoDup_app. repeat split.
  - exact Hnd.
  - intros x Hx Hx'. apply list_elem_of_singleton in Hx'. subst. contradiction.
  - apply NoDup_singleton.
Qed.

Lemma saveAll_spec saves : forall c,
  NoDup (id <$> c) ->
  NoDup (id <$> saveAll saves c) /\
  (forall i, i ∈ id <$> saveAll saves c <->
             i ∈ id <$> c \/ i ∈ id <$> saves) /\
  (forall p, p ∈ saveAll saves c <->
             lastFor (id p) saves = Some p \/
             (lastFor (id p) saves = None /\ p ∈ c)).
Proof.
  induction saves as [|r saves IH]; intros c Hnd; simpl.
  - repeat split; try tauto.
    + intros [H | H]; [exact H | inversion H].
    + intros [Hd | [_ Hp]]; [discriminate | exact Hp].
  - destruct (IH (App.savePrize r c) (savePrize_NoDup r c Hnd)) as (Hnd' & Hids & Hmem).
    split; [exact Hnd' |]. split.
    + intros i. rewrite Hids, savePrize_ids, elem_of_cons.
      destruct (decide (id r ∈ id <$> c)) as [Hin | Hnot].
      * split; [tauto |]. intros [H | [-> | H]]; tauto.
      * rewrite elem_of_app, list_elem_of_singleton. tauto.
    + intros p. rewrite Hmem, (savePrize_elem r c p Hnd).
      destruct (lastFor (id p) saves) as [q|] eqn:Hlast.
      * split; (intros [H | [H _]]; [left; exact H | discriminate]).
      * destruct (String.eqb (id r) (id p)) eqn:Heq.
        -- apply String.eqb_eq in Heq.
           split.
           ++ intros [H | [_ [-> | [_ Hne]]]]; [discriminate | left; reflexivity | congruence].
           ++ intros [H | [H _]]; [| discriminate].
              right. split; [reflexivity |]. left. congruence.
        -- apply String.eqb_neq in Heq.
           split.
           ++ intros [H | [_ [-> | [Hp _]]]]; [discriminate | congruence |].
              right. split; [reflexivity | exact Hp].
           ++ intros [H | [_ Hp]]; [discriminate |].
              right. split; [reflexivity |]. right. split; [exact Hp | congruence].
Qed.

Lemma run_SavePrize saves : forall s : App.State,
  exists s', run (App.SavePrize <$> saves) s = Some s' /\
    App.prizes s' = saveAll saves (App.prizes s).
Proof.
  induction saves as [|r saves IH]; intros s.
  - exists s. split; reflexivity.
  - destruct (IH (App.handleSavePrize r s)) as (s' & Hrun & Hprizes).
    exists s'. split; [exact Hrun | exact Hprizes].
Qed.

(** C1. [handleSavePrize] with an id that is already stored replaces the
    first record with that id in place: same length, the new record at
    that position, every other position as before. With a new id it
    appends the record at the end. Either way it sets the dirty flag.
    Any sequence of upserts handled by the component as it starts, with
    no record, goes through, and after it no id is stored twice, the
    stored ids are the ids used, the size is the number of distinct ids
    used, and a record is stored exactly when it is the last record saved
    for its id. *)
Theorem handleSavePrize_upsert prize (s : App.State) saves (stored : option string) :
  (id prize ∈ id <$> App.prizes s ->
     exists i p, App.prizes s !! i = Some p /\ id p = id prize /\
       (forall j q, (j < i)%nat -> App.prizes s !! j = Some q -> id q <> id prize) /\
       App.prizes (App.handleSavePrize prize s) = <[i := prize]> (App.prizes s) /\
       length (App.prizes (App.handleSavePrize prize s)) = length (App.prizes s) /\
       App.prizes (App.handleSavePrize prize s) !! i = Some prize /\
       (forall j, j <> i ->
          App.prizes (App.handleSavePrize prize s) !! j = App.prizes s !! j)) /\
  (id prize ∉ id <$> App.prizes s ->
     App.prizes (App.handleSavePrize prize s) = App.prizes s ++ [prize]) /\
  App.isDirty (App.handleSavePrize prize s) = true /\
  exists s', run (App.SavePrize <$> saves) (App.initial stored) = Some s' /\
    NoDup (id <$> App.prizes s') /\
    (forall i, i ∈ id <$> App.prizes s' <-> i ∈ id <$> saves) /\
    length (App.prizes s') = size (list_to_set (C := gset string) (id <$> saves)) /\
    (forall p, p ∈ App.prizes s' <-> lastFor (id p) saves = Some p).
Proof.
  cbn [App.handleSavePrize App.prizes App.isDirty App.setIsDirty App.setPrizes].
  split; [| split; [| split; [reflexivity |]]].
  - intros Hin.
    destruct (savePrize_existing prize (App.prizes s) Hin)
      as (i & p & Hi & Hid & Hfirst & Heq).
    exists i, p. rewrite Heq.
    repeat split; try assumption.
    + apply length_insert.
    + apply list_lookup_insert_eq. eapply lookup_lt_Some; eauto.
    + intros j Hj. apply list_lookup_insert_ne. congruence.
  - apply savePrize_fresh.
  - destruct (run_SavePrize saves (App.initial stored)) as (s' & Hrun & Hprizes).
    exists s'. split; [exact Hrun |]. rewrite Hprizes.
    change (App.prizes (App.initial stored)) with (@nil Prize).
    destruct (saveAll_spec saves []) as (Hnd & Hids & Hmem); [constructor |].
    split; [exact Hnd |]. split; [| split].
    + intros i. rewrite Hids. split; [intros [H | H]; [inversion H | exact H] | tauto].
    + rewrite <- (length_fmap id (saveAll saves [])).
      rewrite <- (size_list_to_set (C := gset string) _ Hnd).
      f_equal. apply set_eq. intros i.
      rewrite !elem_of_list_to_set. rewrite Hids.
      split; [intros [H | H]; [inversion H | exact H] | tauto].
    + intros p. rewrite Hmem.
      split; [intros [H | [_ H]]; [exact H | inversion H] | tauto].
Qed.

End Upsert.


(** ** The quantity change *)

Section Quantity.

(** C5. [handleQuantityChange] keeps the length and the order of the
    collection; at every position the record keeps its id, name, date,
    category, manufacturer, photo and notes; its quantity is the new
    quantity when its id is the one given, whatever integer that is, and
    the whole record is unchanged otherwise. *)
Theorem handleQuantityChange_frame (prizeId : string) (newQuantity : Z) (s : App.State) :
  length (App.prizes (App.handleQuantityChange prizeId newQuantity s))
    = length (App.prizes s) /\
  id <$> App.prizes (App.handleQuantityChange prizeId newQuantity s)
    = id <$> App.prizes s /\
  forall i p, App.prizes s !! i = Some p ->
    exists p', App.prizes (App.handleQuantityChange prizeId newQuantity s) !! i = Some p' /\
      id p' = id p /\ name p' = name p /\
      acquisitionDate p' = acquisitionDate p /\ category p' = category p /\
      manufacturer p' = manufacturer p /\ photo p' = photo p /\ notes p' = notes p /\
      (id p = prizeId -> quantity p' = newQuantity) /\
      (id p <> prizeId -> p' = p).
Proof.
  unfold App.handleQuantityChange, App.quantityChange. simpl.
  split; [apply length_fmap |]. split.
  - rewrite <- list_fmap_compose. apply list_fmap_ext.
    intros i p _. simpl. destruct (String.eqb (id p) prizeId); reflexivity.
  - intros i p Hi. rewrite list_lookup_fmap, Hi. simpl.
    destruct (String.eqb_spec (id p) prizeId) as [Heq | Hne].
    + exists (with_quantity p newQuantity).
      repeat split; try reflexivity. intros Hne. contradiction.
    + exists p. repeat split; try reflexivity. intros Heq. contradiction.
Qed.

End Quantity.

(** ** Statistics *)

Section Statistics.

Lemma number_bound : 2 ^ 53 < 2 ^ 1024.
Proof. reflexivity. Qed.

Lemma to_number_small (z : Z) : Z.abs z <= 2 ^ 53 -> JS.to_number z = JS.finite z.
Proof.
  intros Hz. pose proof number_bound as Hlt.
  unfold JS.to_number, JS.round. cbv zeta.
  destruct (Z.leb_spec (Z.abs z) (2 ^ 53)) as [_ | Hgt]; [| lia].
  destruct (Z.leb_spec (2 ^ 1024) (Z.abs z)) as [Hbig | _]; [lia | reflexivity].
Qed.

Lemma add_small (a b : Z) :
  Z.abs (a + b) <= 2 ^ 53 -> JS.add (JS.finite a) (JS.finite b) = JS.finite (a + b).
Proof. apply to_number_small. Qed.

Lemma sum_magnitude_bounds (l : list Prize) :
  0 <= sum_magnitude l /\ Z.abs (sum_quantity l) <= sum_magnitude l.
Proof.
  unfold sum_magnitude, sum_quantity.
  induction l as [|p l IH]; simpl; lia.
Qed.

Lemma sum_magnitude_filter (f : Prize -> bool) (l : list Prize) :
  sum_magnitude (List.filter f l) <= sum_magnitude l.
Proof.
  unfold sum_magnitude. induction l as [|p l IH]; simpl; [lia |].
  destruct (f p); simpl; lia.
Qed.

Lemma totalQuantity_fold (l : list Prize) : forall a : Z,
  Z.abs a + sum_magnitude l <= 2 ^ 53 ->
  fold_left (fun sum p => JS.add sum (JS.to_number (quantity p))) l (JS.finite a)
  = JS.finite (a + sum_quantity l).
Proof.
  induction l as [|p l IH]; intros a Ha.
  - simpl. f_equal. lia.
  - pose proof (sum_magnitude_bounds l) as [Hpos _].
    change (sum_magnitude (p :: l)) with (Z.abs (quantity p) + sum_magnitude l) in Ha.
    cbn [fold_left]. rewrite to_number_small, add_small by lia.
    rewrite IH by lia.
    change (sum_quantity (p :: l)) with (quantity p + sum_quantity l).
    f_equal. lia.
Qed.

Lemma totalQuantity_sum (l : list Prize) :
  sum_magnitude l <= 2 ^ 53 ->
  App.totalQuantity (App.stats l) = JS.finite (sum_quantity l).
Proof.
  intros Hl. unfold App.stats. cbn [App.totalQuantity].
  rewrite totalQuantity_fold by (simpl; lia). reflexivity.
Qed.

Lemma not_inherited (cat : string) :
  cat ∉ JS.Object_prototype ->
  cat <> "__proto__" /\ forall acc, App.get acc cat = acc !! cat.
Proof.
  intros Hcat. split.
  - intros ->. apply Hcat. apply (bool_decide_unpack _). vm_compute. exact I.
  - intros acc. unfold App.get. destruct (acc !! cat); [reflexivity |].
    rewrite bool_decide_eq_false_2 by exact Hcat. reflexivity.
Qed.

Lemma set_other (acc : gmap string App.Count) (cat cat' : string) (c : App.Count) :
  cat' <> cat -> App.set acc cat' c !! cat = acc !! cat.
Proof.
  intros Hne. unfold App.set. destruct (String.eqb cat' "__proto__"); [reflexivity |].
  apply lookup_insert_ne. exact Hne.
Qed.

Lemma categoryCount_fold (cat : string) (l : list Prize) :
  cat ∉ JS.Object_prototype ->
  forall (acc : gmap string App.Count) (a : Z),
  (acc !! cat = None /\ a = 0) \/ acc !! cat = Some (App.counted (JS.finite a)) ->
  Z.abs a + sum_magnitude (of_category cat l) <= 2 ^ 53 ->
  fold_left (fun acc p =>
      App.set acc (category p) (App.plus (App.get acc (category p)) (quantity p))) l acc
    !! cat
  = match of_category cat l with
    | [] => acc !! cat
    | ps => Some (App.counted (JS.finite (a + sum_quantity ps)))
    end.
Proof.
  intros Hcat. destruct (not_inherited cat Hcat) as [Hproto Hget].
  induction l as [|p l IH]; intros acc a Hacc Ha; [reflexivity |].
  cbn [fold_left]. unfold of_category in *. cbn [List.filter] in *.
  destruct (String.eqb_spec (category p) cat) as [Heq | Hne].
  - change (sum_magnitude (p :: List.filter (fun p0 => String.eqb (category p0) cat) l))
      with (Z.abs (quantity p) + sum_magnitude (List.filter (fun p0 => String.eqb (category p0) cat) l))
      in Ha.
    pose proof (sum_magnitude_bounds (List.filter (fun p0 => String.eqb (category p0) cat) l))
      as [Hpos _].
    rewrite Heq.
    assert (Hnew : App.set acc cat (App.plus (App.get acc cat) (quantity p)) !! cat
                   = Some (App.counted (JS.finite (a + quantity p)))).
    { unfold App.set. rewrite (proj2 (String.eqb_neq _ _) Hproto), lookup_insert_eq.
      rewrite Hget. f_equal.
      destruct Hacc as [[-> ->] | ->]; cbn [App.plus JS.or_zero];
        rewrite to_number_small, add_small by lia; reflexivity. }
    rewrite (IH _ (a + quantity p)) by (right; exact Hnew) || lia.
    rewrite Hnew.
    change (sum_quantity (p :: List.filter (fun p0 => String.eqb (category p0) cat) l))
      with (quantity p + sum_quantity (List.filter (fun p0 => String.eqb (category p0) cat) l)).
    destruct (List.filter _ l); do 3 f_equal; unfold sum_quantity; simpl; lia.
  - assert (Hsame : App.set acc (category p) (App.plus (App.get acc (category p)) (quantity p))
                      !! cat = acc !! cat) by (apply set_other; exact Hne).
    rewrite (IH _ a); [rewrite Hsame; reflexivity | rewrite Hsame; exact Hacc | exact Ha].
Qed.

Lemma categoryCount_sum (cat : string) (l : list Prize) :
  cat ∉ JS.Object_prototype -> sum_magnitude l <= 2 ^ 53 ->
  App.categoryCount (App.stats l) !! cat
  = match of_category cat l with
    | [] => None
    | ps => Some (App.counted (JS.finite (sum_quantity ps)))
    end.
Proof.
  intros Hcat Hl. unfold App.stats. cbn [App.categoryCount].
  pose proof (sum_magnitude_filter (fun p => String.eqb (category p) cat) l) as Hsub.
  rewrite (categoryCount_fold cat l Hcat ∅ 0).
  - rewrite lookup_empty. destruct (of_category cat l); reflexivity.
  - left. split; [apply lookup_empty | reflexivity].
  - unfold of_category. simpl. lia.
Qed.

Lemma shownCount_sum (cat : string) (l : list Prize) :
  cat ∉ JS.Object_prototype -> sum_magnitude l <= 2 ^ 53 ->
  App.shownCount (App.stats l) cat = App.counted (JS.finite (sum_quantity (of_category cat l))).
Proof.
  intros Hcat Hl. unfold App.shownCount.
  rewrite (proj2 (not_inherited cat Hcat)), (categoryCount_sum cat l Hcat Hl).
  destruct (of_category cat l); reflexivity.
Qed.




End Statistics.

(** ** The dirty flag *)

Section Dirty.

Lemma handleImport_agrees content confirmed s s' :
  App.handleImport content confirmed s = Some s' ->
  s' = App.setPrizes (App.prizes s') (App.handleImport_cells content confirmed s).
Proof.
  unfold App.handleImport, App.handleImport_cells.
  destruct (JSON.parse content) as [[| | | | |items|]|];
    try (intros [= <-]; reflexivity).
  destruct confirmed; [| intros [= <-]; reflexivity].
  destruct (mapM App.fromJSON items); simpl; [| discriminate].
  intros [= <-]. reflexivity.
Qed.



End Dirty.

(** ** Import of a malformed file *)

Section Malformed.

(** C4. When the text of the file is no JSON text the import shows the
    read-failure alert, and when it is a JSON text whose value is no array
    it shows the bad-format alert; in both cases, whatever the answer to a
    confirmation would be, the collection, the dirty flag and every other
    cell but the alerts and the closed tools menu are as before. *)
Theorem handleImport_malformed (content : string) (confirmed : bool) (s : App.State) :
  (JSON.parse content = None ->
     App.handleImport content confirmed s
       = Some (App.alert App.FileReadFailed (App.setShowTools false s))) /\
  (forall v, JSON.parse content = Some v -> JSON.isArray v = false ->
     App.handleImport content confirmed s
       = Some (App.alert App.BadFileFormat (App.setShowTools false s))) /\
  (forall a,
     App.prizes (App.alert a (App.setShowTools false s)) = App.prizes s /\
     App.isDirty (App.alert a (App.setShowTools false s)) = App.isDirty s /\
     App.localStorage (App.alert a (App.setShowTools false s)) = App.localStorage s /\
     App.prizeToEdit (App.alert a (App.setShowTools false s)) = App.prizeToEdit s /\
     App.saveStatus (App.alert a (App.setShowTools false s)) = App.saveStatus s).
Proof.
  split; [| split].
  - intros Hparse. unfold App.handleImport. rewrite Hparse. reflexivity.
  - intros v Hparse Harr. unfold App.handleImport. rewrite Hparse.
    destruct v; try reflexivity. discriminate.
  - intros a. repeat split.
Qed.

End Malformed.

(** ** The size of the resized image *)

Section Resize.



End Resize.

(** ** The photo of the form *)

Section PhotoFailure.

Variable toDataURL : string -> Z -> Z -> option string.
Variable trim : string -> string.

(** C8, on the code. When the image cannot be decoded, and when it is
    decoded but encoding the canvas throws, the promise of [resizeImage] is
    never settled: after [handlePhotoChange] the form is still processing,
    its photo is the one it had, not the data of the chosen file, and
    [handleSubmit] saves nothing, whatever the record edited and the fields
    of the form. When the image is decoded and encoded the photo is the
    encoded one and the form is no longer processing. No event of the image
    leads to the fallback, the photo set to the data of the chosen file. *)
Theorem handlePhotoChange_decode_failure
    (base64 : string) (f : PrizeFormModal.Form) (prizeToEdit : option Prize)
    (now : string) :
  PrizeFormModal.resizeImage toDataURL base64 PrizeFormModal.onerror
    = PrizeFormModal.pending /\
  PrizeFormModal.isProcessingImage
    (PrizeFormModal.handlePhotoChange toDataURL base64 PrizeFormModal.onerror f) = true /\
  PrizeFormModal.photo
    (PrizeFormModal.handlePhotoChange toDataURL base64 PrizeFormModal.onerror f)
    = PrizeFormModal.photo f /\
  PrizeFormModal.handleSubmit trim prizeToEdit now
    (PrizeFormModal.handlePhotoChange toDataURL base64 PrizeFormModal.onerror f) = None /\
  (forall w h,
     toDataURL base64 (fst (PrizeFormModal.canvasSize w h))
                      (snd (PrizeFormModal.canvasSize w h)) = None ->
     PrizeFormModal.handlePhotoChange toDataURL base64 (PrizeFormModal.onload w h) f
     = PrizeFormModal.setIsProcessingImage true f) /\
  (forall w h resized,
     toDataURL base64 (fst (PrizeFormModal.canvasSize w h))
                      (snd (PrizeFormModal.canvasSize w h)) = Some resized ->
     PrizeFormModal.handlePhotoChange toDataURL base64 (PrizeFormModal.onload w h) f
     = PrizeFormModal.setIsProcessingImage false
         (PrizeFormModal.setPhoto resized (PrizeFormModal.setIsProcessingImage true f))) /\
  (forall e, PrizeFormModal.resizeImage toDataURL base64 e <> PrizeFormModal.rejected).
Proof.
  split; [reflexivity |]. split; [reflexivity |]. split; [reflexivity |].
  split; [| split; [| split]].
  - unfold PrizeFormModal.handleSubmit. simpl.
    destruct (String.eqb _ _); reflexivity.
  - intros w h.
    unfold PrizeFormModal.handlePhotoChange, PrizeFormModal.resizeImage.
    destruct (PrizeFormModal.canvasSize w h). simpl. intros ->. reflexivity.
  - intros w h resized.
    unfold PrizeFormModal.handlePhotoChange, PrizeFormModal.resizeImage.
    destruct (PrizeFormModal.canvasSize w h). simpl. intros ->. reflexivity.
  - intros [w h|]; unfold PrizeFormModal.resizeImage; [| discriminate].
    destruct (PrizeFormModal.canvasSize w h).
    destruct (toDataURL base64 _ _); discriminate.
Qed.

End PhotoFailure.

(** ** The defaults of the edit form *)

Section EditDefaults.

Variable trim : string -> string.

Lemma or_str_empty (s : string) : JS.or_str (Some s) "" = s.
Proof.
  unfold JS.or_str. destruct (String.eqb_spec s ""); congruence.
Qed.

Lemma or_str_filled (s d : string) : s <> "" -> JS.or_str (Some s) d = s.
Proof.
  intros Hs. unfold JS.or_str. destruct (String.eqb_spec s ""); congruence.
Qed.

(** C10. Opening the form on a record fills the quantity with 1 when the
    stored quantity is 0, the date with today's date when the stored date
    is empty, the category with その他 and the manufacturer with 指定なし
    when the stored ones are empty, and with the stored value otherwise.
    Submitting the form opened on a record of quantity 0, with a name that
    is not blank and no image being processed, saves a record of quantity
    1 with the name of the record and its id (when that is not empty); in a
    collection without repeated ids, editing the record and submitting the
    form as it opened puts this record of quantity 1 where the record of
    quantity 0 was. *)
Theorem openForm_falsy_defaults
    (p : Prize) (today now : string) (f : PrizeFormModal.Form) :
  PrizeFormModal.quantity (PrizeFormModal.openForm (Some p) today f)
    = (if quantity p =? 0 then 1 else quantity p) /\
  PrizeFormModal.acquisitionDate (PrizeFormModal.openForm (Some p) today f)
    = (if String.eqb (acquisitionDate p) "" then today else acquisitionDate p) /\
  PrizeFormModal.category (PrizeFormModal.openForm (Some p) today f)
    = (if String.eqb (category p) "" then "その他" else category p) /\
  PrizeFormModal.manufacturer (PrizeFormModal.openForm (Some p) today f)
    = (if String.eqb (manufacturer p) "" then "指定なし" else manufacturer p) /\
  (quantity p = 0 -> trim (name p) <> "" ->
   PrizeFormModal.isProcessingImage f = false ->
   exists saved,
     PrizeFormModal.handleSubmit trim (Some p) now
       (PrizeFormModal.openForm (Some p) today f) = Some saved /\
     quantity saved = 1 /\
     name saved = name p /\
     (id p <> "" -> id saved = id p) /\
     (forall (s : App.State) i,
        id p <> "" -> NoDup (id <$> App.prizes s) -> App.prizes s !! i = Some p ->
        App.prizes
          (submit trim now
             (PrizeFormModal.openForm (App.prizeToEdit (App.onEdit p s)) today f)
             (App.onEdit p s)) !! i = Some saved)).
Proof.
  split; [reflexivity |]. split; [reflexivity |]. split; [reflexivity |].
  split; [reflexivity |].
  intros Hzero Hname Hidle.
  assert (Hsubmit : PrizeFormModal.handleSubmit trim (Some p) now
            (PrizeFormModal.openForm (Some p) today f)
          = Some (mkPrize (JS.or_str (Some (id p)) now) (name p) 1
                    (JS.or_str (Some (acquisitionDate p)) today)
                    (JS.or_str (Some (category p)) "その他")
                    (JS.or_str (Some (manufacturer p)) "指定なし")
                    (Some (JS.or_str (photo p) "")) (Some (JS.or_str (notes p) "")))).
  { unfold PrizeFormModal.handleSubmit, PrizeFormModal.openForm.
    cbn [PrizeFormModal.name PrizeFormModal.isProcessingImage PrizeFormModal.quantity
         PrizeFormModal.acquisitionDate PrizeFormModal.category
         PrizeFormModal.manufacturer PrizeFormModal.photo PrizeFormModal.notes
         fmap option_fmap option_map mbind option_bind].
    rewrite or_str_empty, Hidle.
    destruct (String.eqb_spec (trim (name p)) "") as [Hblank | _]; [contradiction |].
    cbn [orb]. unfold JS.or_num. rewrite Hzero. reflexivity. }
  eexists. split; [exact Hsubmit |].
  split; [reflexivity |]. split; [reflexivity |].
  split; [intros Hid; apply or_str_filled; exact Hid |].
  intros s i Hid Hnd Hi.
  unfold submit. cbn [App.onEdit App.prizeToEdit App.setIsModalOpen App.setPrizeToEdit].
  rewrite Hsubmit.
  cbn [App.onClose App.handleSavePrize App.prizes App.setIsDirty App.setPrizes
       App.setIsModalOpen App.setPrizeToEdit].
  change (App.prizes (App.onEdit p s)) with (App.prizes s).
  match goal with |- App.savePrize ?r _ !! _ = _ => set (saved := r) end.
  assert (Hsid : id saved = id p) by (apply or_str_filled; exact Hid).
  assert (Hin : id saved ∈ id <$> App.prizes s).
  { rewrite Hsid. apply list_elem_of_fmap. exists p.
    split; [reflexivity | apply list_elem_of_lookup; eauto]. }
  destruct (savePrize_existing saved (App.prizes s) Hin) as (j & q & Hj & Hq & _ & ->).
  assert (j = i) as ->.
  { eapply NoDup_lookup; [exact Hnd | |].
    - rewrite list_lookup_fmap, Hj. reflexivity.
    - rewrite list_lookup_fmap, Hi. cbn [fmap option_fmap option_map].
      f_equal. congruence. }
  apply list_lookup_insert_eq. eapply lookup_lt_Some; eauto.
Qed.

End EditDefaults.

(** ** The two orders by name *)

Section NameOrder.

Variable toLowerCase : string -> string.
Variable localeCompare : string -> string -> Z.
Variable getTime : string -> option Z.

(** [localeCompare] is a consistent comparison: swapping the arguments
    swaps the sign, and "not after" is transitive. *)
Hypothesis localeCompare_swap :
  forall a b, localeCompare a b < 0 <-> 0 < localeCompare b a.
Hypothesis localeCompare_trans :
  forall a b c, localeCompare a b <= 0 -> localeCompare b c <= 0 -> localeCompare a c <= 0.

Let ascending : Prize -> Prize -> Z := fun a b => localeCompare (name a) (name b).
Let descending : Prize -> Prize -> Z := fun a b => localeCompare (name b) (name a).

Lemma ascending_total : Total (App.not_after ascending).
Proof.
  intros a b. unfold App.not_after, ascending.
  destruct (Z_le_dec (localeCompare (name a) (name b)) 0) as [Hle | Hgt]; [left; exact Hle |].
  right. assert (localeCompare (name b) (name a) < 0) by (apply localeCompare_swap; lia).
  lia.
Qed.

Lemma descending_total : Total (App.not_after descending).
Proof. intros a b. destruct (ascending_total b a); [left | right]; assumption. Qed.

Lemma ascending_trans : Transitive (App.not_after ascending).
Proof. intros a b c. unfold App.not_after, ascending. apply localeCompare_trans. Qed.

Lemma insert_Permutation {A} (compare : A -> A -> Z) (x : A) (l : list A) :
  App.insert compare x l ≡ₚ x :: l.
Proof.
  induction l as [|y l IH]; [reflexivity |].
  simpl. destruct (compare x y <=? 0); [reflexivity |].
  rewrite IH. apply Permutation_swap.
Qed.

Lemma sort_Permutation {A} (compare : A -> A -> Z) (l : list A) :
  App.sort compare l ≡ₚ l.
Proof.
  induction l as [|x l IH]; [reflexivity |].
  unfold App.sort in *. simpl. rewrite insert_Permutation, IH. reflexivity.
Qed.

Lemma insert_StronglySorted {A} (compare : A -> A -> Z) (x : A) (l : list A) :
  Total (App.not_after compare) -> Transitive (App.not_after compare) ->
  StronglySorted (App.not_after compare) l ->
  StronglySorted (App.not_after compare) (App.insert compare x l).
Proof.
  intros Htot Htrans. induction 1 as [|y l Hl IH Hy]; simpl.
  - repeat constructor.
  - destruct (Z.leb_spec (compare x y) 0) as [Hle | Hgt].
    + constructor; [constructor; assumption |].
      constructor; [exact Hle |].
      eapply Forall_impl; [exact Hy |]. intros z Hz.
      exact (Htrans x y z Hle Hz).
    + constructor; [exact IH |].
      rewrite insert_Permutation. constructor; [| exact Hy].
      destruct (Htot x y) as [Hxy | Hyx]; [| exact Hyx].
      unfold App.not_after in Hxy. lia.
Qed.

Lemma sort_Sorted {A} (compare : A -> A -> Z) (l : list A) :
  Total (App.not_after compare) -> Transitive (App.not_after compare) ->
  Sorted (App.not_after compare) (App.sort compare l).
Proof.
  intros Htot Htrans. apply StronglySorted_Sorted.
  induction l as [|x l IH]; [constructor |].
  unfold App.sort in *. simpl. apply insert_StronglySorted; assumption.
Qed.

Lemma descending_trans : Transitive (App.not_after descending).
Proof. intros a b c Hab Hbc. exact (ascending_trans c b a Hbc Hab). Qed.

Lemma sort_reversed (l : list Prize) :
  (forall a b, a ∈ l -> b ∈ l -> localeCompare (name a) (name b) = 0 -> a = b) ->
  App.sort ascending l = reverse (App.sort descending l).
Proof.
  intros Hties.
  pose proof ascending_total as Htot. pose proof descending_total as Htot'.
  pose proof ascending_trans as Htrans. pose proof descending_trans as Htrans'.
  apply (Sorted_unique_strong (App.not_after ascending)).
  - intros x1 x2 Hx1 Hx2 H12 H21.
    rewrite sort_Permutation in Hx1.
    rewrite reverse_Permutation, sort_Permutation in Hx2.
    apply Hties; [exact Hx1 | exact Hx2 |].
    unfold App.not_after, ascending in H12, H21.
    pose proof (localeCompare_swap (name x1) (name x2)).
    pose proof (localeCompare_swap (name x2) (name x1)). lia.
  - apply sort_Sorted; assumption.
  - apply (Sorted_reverse (App.not_after descending)).
    apply sort_Sorted; assumption.
  - rewrite reverse_Permutation, !sort_Permutation. reflexivity.
Qed.

(** C9. When no two records of the collection compare as equal by name,
    the view of a search term and a category sorted by name ascending is
    the reverse of the view of the same term and category sorted by name
    descending. *)
Theorem name_orders_reversed
    (prizes : list Prize) (searchTerm selectedCategory : string) :
  (forall a b, a ∈ prizes -> b ∈ prizes ->
     localeCompare (name a) (name b) = 0 -> a = b) ->
  App.filteredAndSortedPrizes toLowerCase localeCompare getTime
      prizes searchTerm selectedCategory App.name_asc
  = reverse (App.filteredAndSortedPrizes toLowerCase localeCompare getTime
      prizes searchTerm selectedCategory App.name_desc).
Proof.
  intros Hties. unfold App.filteredAndSortedPrizes.
  apply sort_reversed. intros a b Ha Hb.
  apply Hties.
  - apply list_elem_of_In in Ha. apply filter_In in Ha as [Ha _].
    apply list_elem_of_In. exact Ha.
  - apply list_elem_of_In in Hb. apply filter_In in Hb as [Hb _].
    apply list_elem_of_In. exact Hb.
Qed.

End NameOrder.

(** The view of the three sample records, every term and category, names
    compared by length: the two orders are each other's reverse. *)
Lemma name_orders_reversed_witness :
  App.filteredAndSortedPrizes (fun s => s) by_length (fun _ => None)
      sample "" "すべて" App.name_asc
  = reverse (App.filteredAndSortedPrizes (fun s => s) by_length (fun _ => None)
      sample "" "すべて" App.name_desc) /\
  name <$> App.filteredAndSortedPrizes (fun s => s) by_length (fun _ => None)
      sample "" "すべて" App.name_asc = ["くま"; "Mascots"; "Figure A"].
Proof.
  split; [| vm_compute; reflexivity].
  apply (name_orders_reversed (fun s => s) by_length (fun _ => None)).
  - intros a b. unfold by_length. lia.
  - intros a b c. unfold by_length. lia.
  - intros a b Ha Hb Hcmp. unfold sample in Ha, Hb.
    rewrite !elem_of_cons, elem_of_nil in Ha, Hb.
    destruct Ha as [-> | [-> | [-> | []]]]; destruct Hb as [-> | [-> | [-> | []]]];
      try reflexivity; vm_compute in Hcmp; discriminate.
Defined.

(** ** [JSON.parse] reads back what [JSON.stringify] writes *)

Section Strings.











End Strings.

Section Quoting.



End Quoting.

Section Numbers.

Import Decimal.










End Numbers.

Section RoundTrip.






















End RoundTrip.

(** ** The fuel of the parser is enough

    Every call of the parser leaves less input than it was given, so the
    fuel [JSON.parse] starts with is never used up: with any more fuel the
    answer is the same, and a [None] is a text that is no JSON text. *)

Section Fuel.

Lemma skip_ws_length (s : string) :
  (String.length (JSON.skip_ws s) <= String.length s)%nat.
Proof.
  induction s as [|c s IH]; simpl; [lia |].
  destruct (JSON.is_ws c); simpl; lia.
Qed.

Lemma starts_length (c : ascii) (s r : string) :
  JSON.starts c s = Some r -> String.length s = S (String.length r).
Proof.
  destruct s as [|a s]; simpl; [discriminate |].
  destruct (Ascii.eqb a c); [intros [= ->]; reflexivity | discriminate].
Qed.

Lemma expect_length (w s r : string) :
  JSON.expect w s = Some r -> (String.length r <= String.length s)%nat.
Proof.
  revert s. induction w as [|a w IH]; intros s; simpl.
  - intros [= ->]. lia.
  - destruct (JSON.starts a s) as [s'|] eqn:Hs; [| discriminate].
    intros Hr. apply IH in Hr. apply starts_length in Hs. lia.
Qed.

Lemma take_digits_length (s ds r : string) :
  JSON.take_digits s = (ds, r) ->
  String.length s = (String.length ds + String.length r)%nat.
Proof.
  revert ds r. induction s as [|c s IH]; intros ds r; simpl.
  - intros [= <- <-]. reflexivity.
  - destruct (JSON.is_digit c).
    + destruct (JSON.take_digits s) as [ds' r'] eqn:Hs. intros [= <- <-].
      simpl. rewrite (IH ds' r' eq_refl). reflexivity.
    + intros [= <- <-]. reflexivity.
Qed.

Lemma is_empty_length (s : string) :
  JSON.is_empty s = false -> (1 <= String.length s)%nat.
Proof. destruct s; [discriminate | simpl; lia]. Qed.

Lemma cons_chars_inv (pre : string) (x : option (string * string)) (t r : string) :
  JSON.cons_chars pre x = Some (t, r) -> exists t', x = Some (t', r).
Proof.
  destruct x as [[t' r']|]; simpl; [| discriminate].
  intros [= _ ->]. exists t'. reflexivity.
Qed.

Ltac split_match H :=
  match type of H with
  | context [match ?x with _ => _ end] => destruct x eqn:?
  | context [if ?x then _ else _] => destruct x eqn:?
  end.

Lemma parse_chars_length (n : nat) : forall s t r,
  (String.length s <= n)%nat ->
  JSON.parse_chars s = Some (t, r) -> (String.length r < String.length s)%nat.
Proof.
  induction n as [|n IH]; intros s t r Hn H.
  - destruct s; [discriminate | simpl in Hn; lia].
  - destruct s as [|c s]; [discriminate |].
    cbn [JSON.parse_chars] in H.
    repeat (split_match H; try discriminate; subst);
      try (injection H as <- <-);
      try (apply cons_chars_inv in H as (t' & H); apply IH in H);
      simpl in *; lia.
Qed.

Ltac length_facts :=
  repeat match goal with
  | H : JSON.take_digits _ = (_, _) |- _ => apply take_digits_length in H
  | H : JSON.starts _ _ = Some _ |- _ => apply starts_length in H
  | H : JSON.expect _ _ = Some _ |- _ => apply expect_length in H
  | H : JSON.is_empty _ = false |- _ => apply is_empty_length in H
  | H : JSON.parse_chars _ = Some _ |- _ => apply (parse_chars_length _ _ _ _ (le_n _)) in H
  end.

Ltac split_matches :=
  repeat (match goal with
          | H : context [match ?x with _ => _ end] |- _ => destruct x eqn:?
          | H : context [if ?x then _ else _] |- _ => destruct x eqn:?
          | H : (_, _) = (_, _) |- _ => injection H as ? ?
          | H : Some _ = Some _ |- _ => injection H as ?
          | H : _ || _ = false |- _ => apply orb_false_elim in H as [? ?]
          end; try discriminate; subst).

Lemma parse_number_length (s : string) (v : JSON.value) (r : string) :
  JSON.parse_number s = Some (v, r) -> (String.length r < String.length s)%nat.
Proof.
  unfold JSON.parse_number. intros H.
  split_matches; length_facts; simpl in *; lia.
Qed.

Ltac skip_facts :=
  repeat match goal with
  | H : context [JSON.skip_ws ?x] |- _ =>
      lazymatch goal with
      | _ : (String.length (JSON.skip_ws x) <= String.length x)%nat |- _ => fail
      | _ => pose proof (skip_ws_length x)
      end
  end;
  repeat match goal with
  | H : JSON.skip_ws ?x = _ |- _ => rewrite H in *; clear H
  end.

Lemma parse_length (n : nat) :
  (forall s v r, JSON.parse_value n s = Some (v, r) ->
     (String.length r < String.length s)%nat) /\
  (forall s l r, JSON.parse_items n s = Some (l, r) ->
     (String.length r < String.length s)%nat) /\
  (forall s l r, JSON.parse_members n s = Some (l, r) ->
     (String.length r < String.length s)%nat).
Proof.
  induction n as [|n (IHv & IHi & IHm)]; [repeat split; discriminate |].
  repeat split; intros s x r H.
  - cbn [JSON.parse_value] in H. split_matches; skip_facts;
      repeat match goal with
      | H : JSON.parse_items n _ = Some _ |- _ => apply IHi in H
      | H : JSON.parse_members n _ = Some _ |- _ => apply IHm in H
      | H : JSON.parse_number _ = Some _ |- _ => apply parse_number_length in H
      end; length_facts; simpl in *; lia.
  - cbn [JSON.parse_items] in H. split_matches; skip_facts;
      repeat match goal with
      | H : JSON.parse_value n _ = Some _ |- _ => apply IHv in H
      | H : JSON.parse_items n _ = Some _ |- _ => apply IHi in H
      end; length_facts; simpl in *; lia.
  - cbn [JSON.parse_members] in H. split_matches; skip_facts;
      repeat match goal with
      | H : JSON.parse_value n _ = Some _ |- _ => apply IHv in H
      | H : JSON.parse_members n _ = Some _ |- _ => apply IHm in H
      end; length_facts; simpl in *; lia.
Qed.

Lemma parse_fuel (n : nat) : forall m,
  (forall s, (2 * String.length s < n)%nat -> (2 * String.length s < m)%nat ->
     JSON.parse_value n s = JSON.parse_value m s) /\
  (forall s, (2 * String.length s + 1 < n)%nat -> (2 * String.length s + 1 < m)%nat ->
     JSON.parse_items n s = JSON.parse_items m s) /\
  (forall s, (2 * String.length s + 1 < n)%nat -> (2 * String.length s + 1 < m)%nat ->
     JSON.parse_members n s = JSON.parse_members m s).
Proof.
  induction n as [|n IH]; intros m; [repeat split; intros; lia |].
  destruct m as [|m]; [repeat split; intros; lia |].
  destruct (IH m) as (IHv & IHi & IHm).
  repeat split; intros s Hn Hm.
  - cbn [JSON.parse_value].
    pose proof (skip_ws_length s) as Hs.
    destruct (JSON.skip_ws s) as [|c r]; [reflexivity |].
    pose proof (skip_ws_length r) as Hr. simpl in Hs.
    rewrite (IHi (JSON.skip_ws r)) by lia.
    rewrite (IHm (JSON.skip_ws r)) by lia.
    reflexivity.
  - cbn [JSON.parse_items]. rewrite (IHv s) by lia.
    destruct (JSON.parse_value m s) as [[v r]|] eqn:Hv; [| reflexivity].
    apply (proj1 (parse_length m)) in Hv.
    pose proof (skip_ws_length r) as Hr.
    destruct (JSON.starts "," (JSON.skip_ws r)) as [r'|] eqn:Hcomma; [| reflexivity].
    apply starts_length in Hcomma.
    rewrite (IHi r') by lia. reflexivity.
  - cbn [JSON.parse_members].
    pose proof (skip_ws_length s) as Hs.
    destruct (JSON.starts JSON.dquote (JSON.skip_ws s)) as [r|] eqn:Hq; [| reflexivity].
    apply starts_length in Hq.
    destruct (JSON.parse_chars r) as [[k r1]|] eqn:Hk; [| reflexivity].
    apply (parse_chars_length _ _ _ _ (le_n _)) in Hk.
    pose proof (skip_ws_length r1) as Hr1.
    destruct (JSON.starts ":" (JSON.skip_ws r1)) as [r2|] eqn:Hc; [| reflexivity].
    apply starts_length in Hc.
    rewrite (IHv r2) by lia.
    destruct (JSON.parse_value m r2) as [[v r3]|] eqn:Hv; [| reflexivity].
    apply (proj1 (parse_length m)) in Hv.
    pose proof (skip_ws_length r3) as Hr3.
    destruct (JSON.starts "," (JSON.skip_ws r3)) as [r4|] eqn:Hcomma; [| reflexivity].
    apply starts_length in Hcomma.
    rewrite (IHm r4) by lia. reflexivity.
Qed.

(** With any fuel above twice the length of the text the parser answers as
    [JSON.parse] does. *)
Lemma parse_fuel_enough (s : string) (fuel : nat) :
  (2 * String.length s < fuel)%nat ->
  JSON.parse_value fuel s = JSON.parse_value (S (2 * String.length s)) s.
Proof.
  intros Hfuel. apply (proj1 (parse_fuel fuel (S (2 * String.length s)))); lia.
Qed.

End Fuel.

(** ** Export, then import *)

Section ExportImport.







End ExportImport.

(** ** The handlers on concrete inputs *)

Section Runs.

Example export_sample :
  App.prizes <$> App.handleImport (App.exportDocument sample) true (App.initial None)
  = Some sample.
Proof. vm_compute. reflexivity. Qed.

Example import_not_json :
  JSON.parse "not an array" = None /\
  App.handleImport "not an array" true (App.setPrizes sample (App.initial None))
  = Some (App.alert App.FileReadFailed (App.setPrizes sample (App.initial None))).
Proof. split; vm_compute; reflexivity. Qed.

Example import_not_an_array :
  JSON.parse (JSON.quote "not an array") = Some (JSON.Str "not an array") /\
  App.handleImport (JSON.quote "not an array") true (App.setPrizes sample (App.initial None))
  = Some (App.alert App.BadFileFormat (App.setPrizes sample (App.initial None))).
Proof. split; vm_compute; reflexivity. Qed.

Example stats_sample :
  App.totalTypes (App.stats sample) = 3 /\
  App.totalQuantity (App.stats sample) = JS.finite 5 /\
  App.categoryCount (App.stats sample) !! "フィギュア" = Some (App.counted (JS.finite 0)) /\
  App.categoryCount (App.stats sample) !! "その他" = None /\
  (App.shownCount (App.stats sample) <$> App.prizeCategories)
  = App.counted <$> (JS.finite <$> [3; 2; 0; 0]).
Proof. repeat split; vm_compute; reflexivity. Qed.

(** Beyond [2 ^ 53] the sum is rounded: two quantities of 1 added one by
    one to [2 ^ 53] leave it as it is, and added after one another first
    they count. *)
Example totalQuantity_rounded :
  App.totalQuantity
    (App.stats ((fun q => mkPrize "" "" q "" "その他" "" None None) <$> [2 ^ 53; 1; 1]))
  = JS.finite (2 ^ 53) /\
  App.totalQuantity
    (App.stats ((fun q => mkPrize "" "" q "" "その他" "" None None) <$> [1; 1; 2 ^ 53]))
  = JS.finite (2 ^ 53 + 2).
Proof. split; vm_compute; reflexivity. Qed.

(** The rounding is the one of binary64: the sums of [2 ^ 53] and 1, of
    [2 ^ 53] and 3, and two integers of 63 bits, as [PrimFloat] has them. *)
Example round_as_binary64 :
  JS.round <$> [2 ^ 53 + 1; 2 ^ 53 + 3; 2 ^ 62 + 2 ^ 9; 2 ^ 62 + 2 ^ 9 + 1]
  = [2 ^ 53; 2 ^ 53 + 4; 2 ^ 62; 2 ^ 62 + 2 ^ 10] /\
  Prim2SF (PrizeFormModal.number_of (2 ^ 53) + PrizeFormModal.number_of 1)%float
  = Prim2SF (PrizeFormModal.number_of (JS.round (2 ^ 53 + 1))) /\
  Prim2SF (PrizeFormModal.number_of (2 ^ 53) + PrizeFormModal.number_of 3)%float
  = Prim2SF (PrizeFormModal.number_of (JS.round (2 ^ 53 + 3))) /\
  (fun z => Prim2SF (PrizeFormModal.number_of z)) <$> [2 ^ 62 + 2 ^ 9; 2 ^ 62 + 2 ^ 9 + 1]
  = (fun z => Prim2SF (PrizeFormModal.number_of (JS.round z)))
      <$> [2 ^ 62 + 2 ^ 9; 2 ^ 62 + 2 ^ 9 + 1].
Proof. repeat split; vm_compute; reflexivity. Qed.

(** A record whose category is a name every object inherits: its entry
    is a text, and the four categories shown are not touched. *)
Example categoryCount_inherited :
  App.categoryCount
    (App.stats (sample ++ [mkPrize "" "" 4 "" "constructor" "" None None])) !! "constructor"
  = Some App.concatenated /\
  App.categoryCount
    (App.stats (sample ++ [mkPrize "" "" 4 "" "__proto__" "" None None])) !! "__proto__"
  = None /\
  (App.shownCount (App.stats (sample ++ [mkPrize "" "" 4 "" "constructor" "" None None]))
     <$> App.prizeCategories)
  = App.counted <$> (JS.finite <$> [3; 2; 0; 0]).
Proof. repeat split; vm_compute; reflexivity. Qed.

Example upsert_sample :
  saveAll (sample ++ [mkPrize "1700000000000" "くま" 9 "2024-03-01" "ぬいぐるみ" "タイトー"
                        (Some "") (Some "")]) []
  = <[0%nat := mkPrize "1700000000000" "くま" 9 "2024-03-01" "ぬいぐるみ" "タイトー"
                 (Some "") (Some "")]> sample.
Proof. vm_compute. reflexivity. Qed.

Example quantity_sample :
  quantity <$> App.quantityChange "1700000000002" (-4) sample = [2; 0; -4] /\
  (fun p => with_quantity p 0) <$> App.quantityChange "1700000000002" (-4) sample
  = (fun p => with_quantity p 0) <$> sample.
Proof. split; vm_compute; reflexivity. Qed.

Example edit_quantity_zero :
  quantity <$>
    App.prizes
      (submit (fun s => s) "1700000000999"
         (PrizeFormModal.openForm
            (sample !! 1%nat) "2024-05-05" PrizeFormModal.initialForm)
         (App.onEdit (mkPrize "1700000000001" "Figure A" 0 "2024-02-01" "フィギュア"
                        "SEGA FAVE" (Some "data:image/jpeg;base64,/9j/4AAQ")
                        (Some ("line 1" +:+ String JSON.newline "line 2")))
            (App.setPrizes sample (App.initial None))))
  = [2; 1; 3].
Proof. vm_compute. reflexivity. Qed.

Example photo_not_an_image :
  PrizeFormModal.handlePhotoChange (fun _ _ _ => Some "data:image/jpeg;base64,AAAA")
    "data:text/plain;base64,aGVsbG8=" PrizeFormModal.onerror PrizeFormModal.initialForm
  = PrizeFormModal.setIsProcessingImage true PrizeFormModal.initialForm /\
  PrizeFormModal.handleSubmit (fun s => s) None "1700000000999"
    (PrizeFormModal.setName "くま"
       (PrizeFormModal.handlePhotoChange (fun _ _ _ => Some "data:image/jpeg;base64,AAAA")
          "data:text/plain;base64,aGVsbG8=" PrizeFormModal.onerror
          PrizeFormModal.initialForm))
  = None.
Proof. split; vm_compute; reflexivity. Qed.

Example includes_runs :
  App.includes "hello world" "lo w" = true /\ App.includes "abc" "" = true /\
  App.includes "abc" "abd" = false /\ App.includes "" "a" = false.
Proof. repeat split. Qed.

Example view_by_name :
  name <$> App.filteredAndSortedPrizes (fun s => s) by_length (fun _ => None)
             sample "a" "すべて" App.name_desc
  = ["Mascots"].
Proof. vm_compute. reflexivity. Qed.

Example canvasSize_photos :
  PrizeFormModal.canvasSize 4032 3024 = (600, 450) /\
  PrizeFormModal.canvasSize 3024 4032 = (450, 600) /\
  PrizeFormModal.canvasSize 1920 1080 = (600, 337) /\
  PrizeFormModal.canvasSize 800 800 = (600, 600) /\
  PrizeFormModal.canvasSize 600 600 = (600, 600).
Proof. repeat split; vm_compute; reflexivity. Qed.

Example save_then_quota :
  App.isDirty
    (App.saveTimeout App.QuotaExceeded
       (App.handleSaveToStorage
          (App.handleQuantityChange "1700000000000" 5
             (App.setPrizes sample (App.initial None))))) = true.
Proof. reflexivity. Qed.

Example save_then_stored :
  App.isDirty
    (App.saveTimeout App.Stored
       (App.handleSaveToStorage
          (App.handleQuantityChange "1700000000000" 5
             (App.setPrizes sample (App.initial None))))) = false.
Proof. reflexivity. Qed.

End Runs.

(** * Further properties of the handlers *)

(** ** Deleting a record *)

Section Delete.

Implicit Types (p : Prize) (l : list Prize).

Lemma deletePrize_elem (i : string) l p :
  p ∈ App.deletePrize i l <-> p ∈ l /\ id p <> i.
Proof.
  unfold App.deletePrize. rewrite !list_elem_of_In, filter_In.
  rewrite negb_true_iff, String.eqb_neq. reflexivity.
Qed.

Lemma deletePrize_absent (i : string) l :
  i ∉ id <$> l -> App.deletePrize i l = l.
Proof.
  induction l as [|x l IH]; [reflexivity |].
  rewrite fmap_cons, not_elem_of_cons. intros [Hx Hl].
  unfold App.deletePrize in *. simpl.
  destruct (String.eqb_spec (id x) i) as [Heq | _]; [congruence |].
  simpl. rewrite (IH Hl). reflexivity.
Qed.

Lemma deletePrize_sublist (i : string) l : sublist (App.deletePrize i l) l.
Proof.
  induction l as [|x l IH]; [constructor |].
  unfold App.deletePrize in *. simpl.
  destruct (negb (String.eqb (id x) i)); [apply sublist_skip | apply sublist_cons]; exact IH.
Qed.

Lemma deletePrize_unique (i : string) l : forall k old,
  NoDup (id <$> l) -> l !! k = Some old -> id old = i ->
  App.deletePrize i l = delete k l.
Proof.
  induction l as [|x l IH]; intros k old Hnd Hk Hid; [discriminate |].
  rewrite fmap_cons in Hnd. apply NoDup_cons in Hnd as [Hx Hnd].
  destruct k as [|k]; simpl in Hk.
  - injection Hk as ->. unfold App.deletePrize. simpl.
    rewrite (proj2 (String.eqb_eq _ _) Hid). simpl.
    apply deletePrize_absent. rewrite <- Hid. exact Hx.
  - assert (Hne : id x <> i).
    { intros Heq. apply Hx. rewrite Heq, <- Hid.
      apply list_elem_of_fmap. exists old. split; [reflexivity |].
      apply list_elem_of_lookup. eauto. }
    unfold App.deletePrize in *. simpl.
    rewrite (proj2 (String.eqb_neq _ _) Hne). simpl.
    f_equal. exact (IH k old Hnd Hk Hid).
Qed.

(** X1. [handleDeletePrize], confirmed, keeps exactly the records whose id is
    not the one given, in their order, so the id is stored no more; it
    leaves a collection without the id as it is, and removes one position
    from a collection that stores each id once. Declined, it changes
    nothing. *)
Theorem handleDeletePrize_removes (prizeId : string) (s : App.State) :
  App.prizes (App.handleDeletePrize prizeId true s)
    = App.deletePrize prizeId (App.prizes s) /\
  (forall p, p ∈ App.prizes (App.handleDeletePrize prizeId true s)
             <-> p ∈ App.prizes s /\ id p <> prizeId) /\
  (prizeId ∉ id <$> App.prizes (App.handleDeletePrize prizeId true s)) /\
  sublist (App.prizes (App.handleDeletePrize prizeId true s)) (App.prizes s) /\
  (prizeId ∉ id <$> App.prizes s ->
     App.prizes (App.handleDeletePrize prizeId true s) = App.prizes s) /\
  (forall k old, NoDup (id <$> App.prizes s) ->
     App.prizes s !! k = Some old -> id old = prizeId ->
     App.prizes (App.handleDeletePrize prizeId true s) = delete k (App.prizes s) /\
     S (length (App.prizes (App.handleDeletePrize prizeId true s)))
       = length (App.prizes s)) /\
  App.handleDeletePrize prizeId false s = s.
Proof.
  cbn [App.handleDeletePrize App.prizes App.setIsDirty App.setPrizes].
  split; [reflexivity |]. split; [intros p; apply deletePrize_elem |].
  split; [| split; [apply deletePrize_sublist |
            split; [apply deletePrize_absent | split; [| reflexivity]]]].
  - intros (p & Hid & Hp)%list_elem_of_fmap.
    apply deletePrize_elem in Hp as [_ Hne]. congruence.
  - intros k old Hnd Hk Hid.
    rewrite (deletePrize_unique prizeId _ k old Hnd Hk Hid).
    split; [reflexivity |].
    rewrite length_delete by eauto.
    apply lookup_lt_Some in Hk. lia.
Qed.

End Delete.

(** ** How the handlers compose *)

Section Compose.

Implicit Types (p : Prize) (l : list Prize).

Lemma filter_insert_dropped (f : Prize -> bool) l : forall k x old,
  l !! k = Some old -> f old = false -> f x = false ->
  List.filter f (<[k := x]> l) = List.filter f l.
Proof.
  induction l as [|y l IH]; intros k x old Hk Hold Hx; [reflexivity |].
  destruct k as [|k]; simpl in Hk.
  - injection Hk as ->. simpl. rewrite Hold, Hx. reflexivity.
  - simpl. rewrite (IH k x old Hk Hold Hx). reflexivity.
Qed.

Lemma deletePrize_savePrize p l :
  App.deletePrize (id p) (App.savePrize p l) = App.deletePrize (id p) l.
Proof.
  destruct (decide (id p ∈ id <$> l)) as [Hin | Hout].
  - destruct (savePrize_existing p l Hin) as (k & old & Hk & Hid & _ & ->).
    unfold App.deletePrize.
    apply (filter_insert_dropped _ l k p old Hk).
    + rewrite Hid, String.eqb_refl. reflexivity.
    + rewrite String.eqb_refl. reflexivity.
  - rewrite (savePrize_fresh p l Hout). unfold App.deletePrize.
    rewrite List.filter_app. simpl. rewrite String.eqb_refl. simpl.
    rewrite app_nil_r. reflexivity.
Qed.

Lemma deletePrize_twice (i : string) l :
  App.deletePrize i (App.deletePrize i l) = App.deletePrize i l.
Proof.
  apply deletePrize_absent.
  intros (p & Hid & Hp)%list_elem_of_fmap.
  apply deletePrize_elem in Hp as [_ Hne]. congruence.
Qed.

Lemma deletePrize_comm (i j : string) l :
  App.deletePrize i (App.deletePrize j l) = App.deletePrize j (App.deletePrize i l).
Proof.
  unfold App.deletePrize. induction l as [|x l IH]; [reflexivity |].
  simpl. destruct (negb (String.eqb (id x) j)) eqn:Hj;
    destruct (negb (String.eqb (id x) i)) eqn:Hi; simpl;
    rewrite ?Hj, ?Hi, IH; reflexivity.
Qed.

Lemma savePrize_twice p l :
  App.savePrize p (App.savePrize p l) = App.savePrize p l.
Proof.
  assert (Hin : id p ∈ id <$> App.savePrize p l).
  { destruct (decide (id p ∈ id <$> l)) as [Hl | Hl].
    - destruct (savePrize_existing p l Hl) as (k & old & Hk & _ & _ & ->).
      apply list_elem_of_fmap. exists p. split; [reflexivity |].
      apply list_elem_of_lookup. exists k.
      apply list_lookup_insert_eq. apply lookup_lt_Some in Hk. exact Hk.
    - rewrite (savePrize_fresh p l Hl), fmap_app. set_solver. }
  destruct (savePrize_existing p (App.savePrize p l) Hin)
    as (k' & old' & Hk' & Hid' & Hfirst' & ->).
  apply list_insert_id. rewrite Hk'. f_equal.
  destruct (decide (id p ∈ id <$> l)) as [Hl | Hl].
  - destruct (savePrize_existing p l Hl) as (k & old & Hk & Hid & Hfirst & Hsave).
    rewrite Hsave in Hk', Hfirst'.
    pose proof (lookup_lt_Some _ _ _ Hk) as Hlen.
    destruct (lt_eq_lt_dec k' k) as [[Hlt | ->] | Hgt].
    + rewrite list_lookup_insert_ne in Hk' by lia.
      destruct (Hfirst k' old' Hlt Hk' Hid').
    + rewrite list_lookup_insert_eq in Hk' by exact Hlen. congruence.
    + destruct (Hfirst' k p Hgt); [| reflexivity].
      apply list_lookup_insert_eq. exact Hlen.
  - rewrite (savePrize_fresh p l Hl) in Hk'.
    apply lookup_app_Some in Hk' as [Hk' | [_ Hk']].
    + destruct Hl. apply list_elem_of_fmap. exists old'. split; [congruence |].
      apply list_elem_of_lookup. eauto.
    + apply list_lookup_singleton_Some in Hk' as [_ Heq]. symmetry. exact Heq.
Qed.

Lemma with_quantity_same p : with_quantity p (quantity p) = p.
Proof. destruct p. reflexivity. Qed.

Lemma quantityChange_absent (i : string) (q : Z) l :
  i ∉ id <$> l -> App.quantityChange i q l = l.
Proof.
  intros Hout. unfold App.quantityChange.
  rewrite <- (list_fmap_id l) at 2. apply list_fmap_ext.
  intros k p Hk. destruct (String.eqb_spec (id p) i) as [Heq | _]; [| reflexivity].
  destruct Hout. apply list_elem_of_fmap. exists p. split; [congruence |].
  apply list_elem_of_lookup. eauto.
Qed.

Lemma quantityChange_unique (i : string) (q : Z) l : forall k old,
  NoDup (id <$> l) -> l !! k = Some old -> id old = i ->
  App.quantityChange i q l = <[k := with_quantity old q]> l.
Proof.
  induction l as [|x l IH]; intros k old Hnd Hk Hid; [discriminate |].
  rewrite fmap_cons in Hnd. apply NoDup_cons in Hnd as [Hx Hnd].
  unfold App.quantityChange in *. rewrite fmap_cons.
  destruct k as [|k]; simpl in Hk.
  - injection Hk as ->. rewrite (proj2 (String.eqb_eq _ _) Hid). simpl. f_equal.
    apply (quantityChange_absent i q l). rewrite <- Hid. exact Hx.
  - assert (Hne : id x <> i).
    { intros Heq. apply Hx. rewrite Heq, <- Hid.
      apply list_elem_of_fmap. exists old. split; [reflexivity |].
      apply list_elem_of_lookup. eauto. }
    rewrite (proj2 (String.eqb_neq _ _) Hne). simpl. f_equal.
    exact (IH k old Hnd Hk Hid).
Qed.

Lemma savePrize_unique p l k old :
  NoDup (id <$> l) -> l !! k = Some old -> id old = id p ->
  App.savePrize p l = <[k := p]> l.
Proof.
  intros Hnd Hk Hid.
  assert (Hin : id p ∈ id <$> l).
  { apply list_elem_of_fmap. exists old. split; [congruence |].
    apply list_elem_of_lookup. eauto. }
  destruct (savePrize_existing p l Hin) as (k' & old' & Hk' & Hid' & _ & ->).
  f_equal. apply (NoDup_lookup (id <$> l) k' k (id p)); [exact Hnd | |];
    rewrite list_lookup_fmap; [rewrite Hk' | rewrite Hk]; simpl; congruence.
Qed.

(** X2. An upsert followed by the deletion of its id leaves what the
    deletion alone leaves, which is the collection itself when the id was
    new; an upsert or a deletion done twice is done once; deletions can
    be swapped. *)
Theorem upsert_delete_compose (prize : Prize) (i j : string) (s : App.State) :
  App.prizes (App.handleDeletePrize (id prize) true (App.handleSavePrize prize s))
    = App.deletePrize (id prize) (App.prizes s) /\
  (id prize ∉ id <$> App.prizes s ->
   App.prizes (App.handleDeletePrize (id prize) true (App.handleSavePrize prize s))
     = App.prizes s) /\
  App.handleSavePrize prize (App.handleSavePrize prize s) = App.handleSavePrize prize s /\
  App.handleDeletePrize i true (App.handleDeletePrize i true s)
    = App.handleDeletePrize i true s /\
  App.handleDeletePrize i true (App.handleDeletePrize j true s)
    = App.handleDeletePrize j true (App.handleDeletePrize i true s).
Proof.
  unfold App.handleDeletePrize, App.handleSavePrize, App.setIsDirty, App.setPrizes.
  cbn -[App.savePrize App.deletePrize].
  rewrite deletePrize_savePrize, savePrize_twice, deletePrize_twice.
  rewrite (deletePrize_comm i j).
  repeat split. apply deletePrize_absent.
Qed.

(** X3. Of two quantity changes of one id the later one counts, and
    changes of different ids can be swapped; a change of an id that is
    not stored, or to the quantity every record of the id already has,
    leaves the collection as it is; in a collection that stores each id
    once the change rewrites one position. *)
Theorem quantityChange_compose (i j : string) (q q' : Z) (s : App.State) :
  App.handleQuantityChange i q' (App.handleQuantityChange i q s)
    = App.handleQuantityChange i q' s /\
  (i <> j ->
   App.handleQuantityChange i q (App.handleQuantityChange j q' s)
     = App.handleQuantityChange j q' (App.handleQuantityChange i q s)) /\
  (i ∉ id <$> App.prizes s ->
   App.prizes (App.handleQuantityChange i q s) = App.prizes s) /\
  ((forall p, p ∈ App.prizes s -> id p = i -> quantity p = q) ->
   App.prizes (App.handleQuantityChange i q s) = App.prizes s) /\
  (forall k old, NoDup (id <$> App.prizes s) ->
     App.prizes s !! k = Some old -> id old = i ->
     App.prizes (App.handleQuantityChange i q s)
       = <[k := with_quantity old q]> (App.prizes s)).
Proof.
  unfold App.handleQuantityChange, App.setIsDirty, App.setPrizes.
  cbn -[App.quantityChange].
  split; [| split; [| split; [apply quantityChange_absent | split]]].
  - f_equal. unfold App.quantityChange. rewrite <- list_fmap_compose.
    apply list_fmap_ext. intros k p _. simpl.
    destruct (String.eqb_spec (id p) i) as [Heq | Hne]; simpl.
    + rewrite (proj2 (String.eqb_eq _ _) Heq). reflexivity.
    + rewrite (proj2 (String.eqb_neq _ _) Hne). reflexivity.
  - intros Hij. f_equal. unfold App.quantityChange. rewrite <- !list_fmap_compose.
    apply list_fmap_ext. intros k p _. simpl.
    destruct (String.eqb_spec (id p) i) as [Hi | Hi];
      destruct (String.eqb_spec (id p) j) as [Hj | Hj]; simpl;
      rewrite ?(proj2 (String.eqb_eq _ _) Hi), ?(proj2 (String.eqb_neq _ _) Hi),
        ?(proj2 (String.eqb_eq _ _) Hj), ?(proj2 (String.eqb_neq _ _) Hj);
      congruence.
  - intros Hsame. unfold App.quantityChange.
    rewrite <- (list_fmap_id (App.prizes s)) at 2. apply list_fmap_ext.
    intros k p Hk. destruct (String.eqb_spec (id p) i) as [Heq | _]; [| reflexivity].
    rewrite <- (Hsame p); [apply with_quantity_same | | exact Heq].
    apply list_elem_of_lookup. eauto.
  - intros k old. apply quantityChange_unique.
Qed.

End Compose.

(** ** The summary after a change *)

Section Summary.

Implicit Types (p : Prize) (l : list Prize).







Lemma sample_ids : NoDup (id <$> sample).
Proof. apply (bool_decide_unpack _). vm_compute. exact I. Qed.



End Summary.

(** ** The breakdown by category *)

Section Breakdown.

Implicit Types (p : Prize) (l : list Prize).

Lemma sum_quantity_split (f : Prize -> bool) l :
  sum_quantity l
  = sum_quantity (List.filter f l) + sum_quantity (List.filter (fun p => negb (f p)) l).
Proof.
  unfold sum_quantity. induction l as [|x l IH]; simpl; [reflexivity |].
  destruct (f x); simpl; lia.
Qed.

Lemma sum_quantity_categories (cs : list string) l :
  NoDup cs ->
  foldr Z.add 0 ((fun c => sum_quantity (of_category c l)) <$> cs)
  = sum_quantity (List.filter (fun p => bool_decide (category p ∈ cs)) l).
Proof.
  induction cs as [|c cs IH]; intros Hnd.
  - induction l as [|x l IHl]; [reflexivity |].
    cbn [List.filter]. rewrite bool_decide_eq_false_2 by apply not_elem_of_nil.
    exact IHl.
  - apply NoDup_cons in Hnd as [Hc Hnd].
    rewrite fmap_cons. cbn [foldr]. rewrite (IH Hnd). clear IH.
    unfold of_category, sum_quantity.
    induction l as [|x l IHl]; [reflexivity |].
    cbn [List.filter].
    destruct (String.eqb_spec (category x) c) as [Heq | Hne].
    + rewrite (bool_decide_eq_true_2 (category x ∈ c :: cs)) by (rewrite Heq; left).
      rewrite (bool_decide_eq_false_2 (category x ∈ cs)) by (rewrite Heq; exact Hc).
      cbn [foldr]. lia.
    + destruct (decide (category x ∈ cs)) as [Hin | Hout].
      * rewrite (bool_decide_eq_true_2 (category x ∈ c :: cs)) by (right; exact Hin).
        rewrite (bool_decide_eq_true_2 (category x ∈ cs)) by exact Hin.
        cbn [foldr]. lia.
      * rewrite (bool_decide_eq_false_2 (category x ∈ c :: cs))
          by (rewrite not_elem_of_cons; split; assumption).
        rewrite (bool_decide_eq_false_2 (category x ∈ cs)) by exact Hout.
        exact IHl.
Qed.

Lemma prizeCategories_NoDup : NoDup App.prizeCategories.
Proof. apply (bool_decide_unpack _). vm_compute. exact I. Qed.

Lemma prizeCategories_own : Forall (fun cat => cat ∉ JS.Object_prototype) App.prizeCategories.
Proof. apply (bool_decide_unpack _). vm_compute. exact I. Qed.

(** X5. While the magnitudes of the quantities add up to at most
    [2 ^ 53], the summary shows an integer for each of the four
    categories, and these add up to the quantities of the records whose
    category is one of the four; the total quantity is that sum and the
    quantities of the records of other categories, which the breakdown
    leaves out; the two agree when every record has one of the four
    categories. *)
Theorem breakdown_total (prizes : list Prize)
    (Hbound : sum_magnitude prizes <= 2 ^ 53) :
  exists shown : list Z,
    mapM shown_number (App.shownCount (App.stats prizes) <$> App.prizeCategories)
      = Some shown /\
    foldr Z.add 0 shown = sum_quantity (List.filter shown_category prizes) /\
    App.totalQuantity (App.stats prizes)
      = JS.finite (foldr Z.add 0 shown
                   + sum_quantity (List.filter (fun p => negb (shown_category p)) prizes)) /\
    (Forall (fun p => category p ∈ App.prizeCategories) prizes ->
     App.totalQuantity (App.stats prizes) = JS.finite (foldr Z.add 0 shown)).
Proof.
  exists ((fun c => sum_quantity (of_category c prizes)) <$> App.prizeCategories).
  assert (Hshown :
    foldr Z.add 0 ((fun c => sum_quantity (of_category c prizes)) <$> App.prizeCategories)
    = sum_quantity (List.filter shown_category prizes))
    by exact (sum_quantity_categories _ _ prizeCategories_NoDup).
  rewrite Hshown, (totalQuantity_sum prizes Hbound).
  split; [| split; [reflexivity | split]].
  - pose proof prizeCategories_own as Hown. clear Hshown.
    induction Hown as [|c cs Hc Hown IH]; [reflexivity |].
    rewrite !fmap_cons. cbn [mapM].
    rewrite (shownCount_sum c prizes Hc Hbound). cbn [shown_number].
    rewrite IH. reflexivity.
  - f_equal. apply sum_quantity_split.
  - intros Hall. do 2 f_equal. clear Hshown Hbound.
    induction Hall as [|x l Hx Hall IH]; [reflexivity |].
    simpl. unfold shown_category at 1. rewrite bool_decide_eq_true_2 by exact Hx.
    f_equal. exact IH.
Qed.

(** The sample: 3, 2, 0 and 0 are shown, and they add up to the total. *)
Lemma breakdown_total_witness :
  exists shown : list Z,
    mapM shown_number (App.shownCount (App.stats sample) <$> App.prizeCategories)
      = Some shown /\
    foldr Z.add 0 shown = 5 /\
    App.totalQuantity (App.stats sample) = JS.finite 5.
Proof.
  destruct (breakdown_total sample) as (shown & Hshown & Hsum & _ & Hall);
    [vm_compute; discriminate |].
  exists shown. split; [exact Hshown |]. split; [rewrite Hsum; reflexivity |].
  rewrite Hall; [rewrite Hsum; reflexivity |].
  apply (bool_decide_unpack _). vm_compute. exact I.
Defined.

End Breakdown.

(** ** The records the list shows *)

Section Shown.

Variable toLowerCase : string -> string.
Variable localeCompare : string -> string -> Z.
Variable getTime : string -> option Z.

Lemma includes_empty (s : string) : App.includes s "" = true.
Proof. unfold App.includes. destruct s; reflexivity. Qed.

Lemma view_Permutation (prizes : list Prize) (term cat : string) (order : App.SortOrder) :
  App.filteredAndSortedPrizes toLowerCase localeCompare getTime prizes term cat order
  ≡ₚ List.filter (fun prize =>
       App.includes (toLowerCase (name prize)) (toLowerCase term)
       && (String.eqb cat "すべて" || String.eqb (category prize) cat)) prizes.
Proof.
  unfold App.filteredAndSortedPrizes.
  destruct order; apply sort_Permutation.
Qed.

Lemma filter_sublist {A} (f : A -> bool) (l : list A) : sublist (List.filter f l) l.
Proof.
  induction l as [|x l IH]; [constructor |].
  simpl. destruct (f x); [apply sublist_skip | apply sublist_cons]; exact IH.
Qed.

(** X6. Whatever the order chosen, the list shows exactly the records
    whose lower-cased name includes the lower-cased search term and whose
    category is the selected one, every category for すべて: the order
    only permutes them. It shows no record twice that is not stored twice,
    and with a term that lower-cases to the empty text and すべて it shows
    every record. *)
Theorem view_shows (prizes : list Prize) (term cat : string) (order order' : App.SortOrder) :
  (forall p, p ∈ App.filteredAndSortedPrizes toLowerCase localeCompare getTime prizes term cat order <->
     p ∈ prizes /\
     App.includes (toLowerCase (name p)) (toLowerCase term) = true /\
     (cat = "すべて" \/ category p = cat)) /\
  App.filteredAndSortedPrizes toLowerCase localeCompare getTime prizes term cat order ≡ₚ App.filteredAndSortedPrizes toLowerCase localeCompare getTime prizes term cat order' /\
  (length (App.filteredAndSortedPrizes toLowerCase localeCompare getTime prizes term cat order) <= length prizes)%nat /\
  (NoDup prizes -> NoDup (App.filteredAndSortedPrizes toLowerCase localeCompare getTime prizes term cat order)) /\
  (toLowerCase term = "" -> App.filteredAndSortedPrizes toLowerCase localeCompare getTime prizes term "すべて" order ≡ₚ prizes).
Proof.
  split; [| split; [| split; [| split]]].
  - intros p. rewrite view_Permutation, list_elem_of_In, filter_In.
    rewrite <- list_elem_of_In, andb_true_iff, orb_true_iff, !String.eqb_eq.
    reflexivity.
  - rewrite !view_Permutation. reflexivity.
  - rewrite view_Permutation. apply sublist_length, filter_sublist.
  - intros Hnd. rewrite view_Permutation.
    exact (sublist_NoDup _ _ Hnd (filter_sublist _ _)).
  - intros Hterm. rewrite view_Permutation, Hterm.
    induction prizes as [|x l IH]; [reflexivity |].
    cbn [List.filter]. rewrite includes_empty, String.eqb_refl. simpl.
    constructor. exact IH.
Qed.

End Shown.

(** ** The order by date *)

Section DateOrder.

Variable toLowerCase : string -> string.
Variable localeCompare : string -> string -> Z.
Variable getTime : string -> option Z.

Lemma insert_ext {A} (compare compare' : A -> A -> Z) (x : A) (l : list A) :
  (forall b, b ∈ l -> compare x b = compare' x b) ->
  App.insert compare x l = App.insert compare' x l.
Proof.
  induction l as [|y l IH]; intros Hext; [reflexivity |].
  simpl. rewrite (Hext y) by left.
  destruct (compare' x y <=? 0); [reflexivity |].
  f_equal. apply IH. intros b Hb. apply Hext. right. exact Hb.
Qed.

Lemma sort_ext {A} (compare compare' : A -> A -> Z) (l : list A) :
  (forall a b, a ∈ l -> b ∈ l -> compare a b = compare' a b) ->
  App.sort compare l = App.sort compare' l.
Proof.
  induction l as [|x l IH]; intros Hext; [reflexivity |].
  unfold App.sort in *. cbn [foldr].
  rewrite IH by (intros a b Ha Hb; apply Hext; right; assumption).
  apply insert_ext. intros b Hb.
  apply Hext; [left |]. right.
  change (foldr (App.insert compare') [] l) with (App.sort compare' l) in Hb.
  rewrite sort_Permutation in Hb. exact Hb.
Qed.

Lemma newer_first_sorted (key : Prize -> Z) (l : list Prize) :
  StronglySorted (fun a b => key b <= key a) (App.sort (newer_first key) l).
Proof.
  assert (Htot : Total (App.not_after (newer_first key))).
  { intros a b. unfold App.not_after, newer_first. lia. }
  assert (Htrans : Transitive (App.not_after (newer_first key))).
  { intros a b c. unfold App.not_after, newer_first. lia. }
  assert (Hsorted : StronglySorted (App.not_after (newer_first key))
                      (App.sort (newer_first key) l)).
  { induction l as [|x l IH]; [constructor |].
    unfold App.sort in *. cbn [foldr]. apply insert_StronglySorted; assumption. }
  induction Hsorted as [|x l' Hl' IH Hx]; constructor; [exact IH |].
  eapply Forall_impl; [exact Hx |].
  intros b. unfold App.not_after, newer_first. lia.
Qed.

Lemma newer_first_insert_stable (key : Prize -> Z) (t : Z) (x : Prize) (l : list Prize) :
  List.filter (fun p => key p =? t) (App.insert (newer_first key) x l)
  = List.filter (fun p => key p =? t) (x :: l).
Proof.
  induction l as [|y l IH]; [reflexivity |].
  cbn [App.insert].
  destruct (Z.leb_spec (newer_first key x y) 0) as [Hle | Hgt]; [reflexivity |].
  unfold newer_first in Hgt.
  cbn [List.filter] in *. rewrite IH.
  destruct (Z.eqb_spec (key x) t) as [Hx | Hx];
    destruct (Z.eqb_spec (key y) t) as [Hy | Hy]; try reflexivity; lia.
Qed.

Lemma newer_first_stable (key : Prize -> Z) (t : Z) (l : list Prize) :
  List.filter (fun p => key p =? t) (App.sort (newer_first key) l)
  = List.filter (fun p => key p =? t) l.
Proof.
  induction l as [|x l IH]; [reflexivity |].
  unfold App.sort in *. cbn [foldr].
  rewrite newer_first_insert_stable. cbn [List.filter]. rewrite IH. reflexivity.
Qed.

(** X7. When the date of every record is a date, the list ordered by
    date shows the records from the newest to the oldest, and the records
    of one date in the order in which they are stored. *)
Theorem view_newest_first (prizes : list Prize) (term cat : string)
    (Hdates : forall p, p ∈ prizes -> is_Some (getTime (acquisitionDate p))) :
  StronglySorted (fun a b => time_of getTime b <= time_of getTime a)
    (App.filteredAndSortedPrizes toLowerCase localeCompare getTime prizes term cat App.date_desc) /\
  (forall t : Z,
     List.filter (fun p => time_of getTime p =? t) (App.filteredAndSortedPrizes toLowerCase localeCompare getTime prizes term cat App.date_desc)
     = List.filter (fun p => time_of getTime p =? t)
         (List.filter (fun prize =>
            App.includes (toLowerCase (name prize)) (toLowerCase term)
            && (String.eqb cat "すべて" || String.eqb (category prize) cat)) prizes)).
Proof.
  unfold App.filteredAndSortedPrizes.
  set (filtered := List.filter _ prizes).
  assert (Hsort :
    App.sort (fun a b => App.time_difference getTime (acquisitionDate b) (acquisitionDate a))
      filtered
    = App.sort (newer_first (time_of getTime)) filtered).
  { apply sort_ext. intros a b Ha Hb.
    assert (Hin : forall p, p ∈ filtered -> p ∈ prizes).
    { intros p. unfold filtered. rewrite !list_elem_of_In, filter_In. tauto. }
    destruct (Hdates a (Hin a Ha)) as [ta Hta].
    destruct (Hdates b (Hin b Hb)) as [tb Htb].
    unfold App.time_difference, newer_first, time_of.
    rewrite Hta, Htb. reflexivity. }
  rewrite Hsort. split; [apply newer_first_sorted |].
  intros t. apply newer_first_stable.
Qed.

End DateOrder.

(** Three records, the first and the last of one date, the times read
    off the digits: the record of February comes first, the two of
    January follow in the order in which they are stored. *)
Lemma view_newest_first_witness :
  name <$> App.filteredAndSortedPrizes (fun s => s) by_length digits_time
             (<[2%nat := mkPrize "1700000000002" "Mascots" 3 "2024-01-01" "マスコット"
                           "指定なし" None None]> sample)
             "" "すべて" App.date_desc
  = ["Figure A"; "くま"; "Mascots"] /\
  StronglySorted (fun a b => time_of digits_time b <= time_of digits_time a)
    (App.filteredAndSortedPrizes (fun s => s) by_length digits_time
       (<[2%nat := mkPrize "1700000000002" "Mascots" 3 "2024-01-01" "マスコット"
                     "指定なし" None None]> sample)
       "" "すべて" App.date_desc).
Proof.
  split; [vm_compute; reflexivity |].
  apply (view_newest_first (fun s => s) by_length digits_time).
  intros p Hp. cbn in Hp.
  rewrite !elem_of_cons, elem_of_nil in Hp.
  destruct Hp as [-> | [-> | [-> | []]]]; vm_compute; eexists; reflexivity.
Defined.

(** ** Runs of the component *)

Section Persistence.

Implicit Types (e : App.Event) (s : App.State) (events : list App.Event).






Lemma deletePrize_NoDup (i : string) (l : list Prize) :
  NoDup (id <$> l) -> NoDup (id <$> App.deletePrize i l).
Proof.
  intros Hnd. apply (sublist_NoDup _ _ Hnd).
  apply fmap_sublist, deletePrize_sublist.
Qed.

Lemma quantityChange_ids (i : string) (q : Z) (l : list Prize) :
  id <$> App.quantityChange i q l = id <$> l.
Proof.
  unfold App.quantityChange. rewrite <- list_fmap_compose. apply list_fmap_ext.
  intros k p _. simpl. destruct (String.eqb (id p) i); reflexivity.
Qed.

Lemma handle_NoDup e s :
  is_confirmed_import e = false -> NoDup (id <$> App.prizes s) ->
  exists s', App.handle e s = Some s' /\ NoDup (id <$> App.prizes s').
Proof.
  intros He Hnd.
  destruct e as [prize | prizeId [] | prizeId q | [] | content confirmed | today
                 | | outcome | | p | | ]; cbn [App.handle];
    try (eexists; split; [reflexivity | exact Hnd]).
  - eexists. split; [reflexivity |]. apply savePrize_NoDup, Hnd.
  - eexists. split; [reflexivity |]. apply deletePrize_NoDup, Hnd.
  - eexists. split; [reflexivity |].
    cbn [App.handleQuantityChange App.prizes App.setIsDirty App.setPrizes].
    rewrite quantityChange_ids. exact Hnd.
  - eexists. split; [reflexivity |]. constructor.
  - simpl in He. subst confirmed. unfold App.handleImport.
    destruct (JSON.parse content) as [[]|]; eexists; (split; [reflexivity | exact Hnd]).
  - unfold App.saveTimeout. destruct (App.saveTimers s), outcome;
      eexists; (split; [reflexivity | exact Hnd]).
  - unfold App.idleTimeout. destruct (App.idleTimers s);
      eexists; (split; [reflexivity | exact Hnd]).
Qed.

(** X9. A collection that stores each id once keeps doing so, whatever
    happens to the component, as long as no import is confirmed: no
    handler but the import brings in a second record of an id. Every such
    run goes through. *)
Theorem ids_stay_unique (events : list App.Event) (s : App.State)
    (Hids : NoDup (id <$> App.prizes s))
    (Hevents : Forall (fun e => is_confirmed_import e = false) events) :
  exists s', run events s = Some s' /\ NoDup (id <$> App.prizes s').
Proof.
  revert s Hids. induction Hevents as [|e events He Hevents IH]; intros s Hids.
  - exists s. split; [reflexivity | exact Hids].
  - destruct (handle_NoDup e s He Hids) as (s1 & Hs1 & Hids1).
    destruct (IH s1 Hids1) as (s' & Hrun & Hids').
    exists s'. split; [| exact Hids'].
    simpl. rewrite Hs1. exact Hrun.
Qed.

(** The sample, with an upsert of a stored id, an upsert of a new id, a
    deletion and an import that is declined. *)
Lemma ids_stay_unique_witness :
  exists s',
    run [App.SavePrize (mkPrize "1700000000001" "Figure B" 7 "2024-03-01" "フィギュア"
                          "BANDAI SPIRITS" None None);
         App.SavePrize (mkPrize "1700000000003" "Key ring" 1 "2024-03-02" "その他"
                          "指定なし" None None);
         App.DeletePrize "1700000000000" true;
         App.Import "[]" false]
      (App.setPrizes sample (App.initial None)) = Some s' /\
    NoDup (id <$> App.prizes s').
Proof.
  apply ids_stay_unique; [exact sample_ids | repeat constructor].
Defined.




End Persistence.

(** ** The form, from its opening to the submit *)

Section FormRuns.

Variable toDataURL : string -> Z -> Z -> option string.
Variable trim : string -> string.

Implicit Types (f : PrizeFormModal.Form) (c : PrizeFormModal.Control) (s : App.State).

Lemma handleSubmit_passes (prizeToEdit : option Prize) (now : string) f :
  trim (PrizeFormModal.name f) <> "" -> PrizeFormModal.isProcessingImage f = false ->
  PrizeFormModal.handleSubmit trim prizeToEdit now f
  = Some (mkPrize (JS.or_str (id <$> prizeToEdit) now)
            (PrizeFormModal.name f) (PrizeFormModal.quantity f)
            (PrizeFormModal.acquisitionDate f) (PrizeFormModal.category f)
            (PrizeFormModal.manufacturer f)
            (Some (PrizeFormModal.photo f)) (Some (PrizeFormModal.notes f))).
Proof.
  intros Hname Hidle. unfold PrizeFormModal.handleSubmit.
  rewrite (proj2 (String.eqb_neq _ _) Hname), Hidle. reflexivity.
Qed.

(** X11. A submit with a name that is not blank, while no image is being
    processed, closes the form, forgets the record edited and sets the
    dirty flag. From the add button it appends a record with the fields of
    the form and the time stamp as id when no record has that id, and
    writes over the record that has it otherwise, so the collection does
    not grow; from the edit of a stored record with an id it puts the
    fields of the form under that id in the place of the record. *)
Theorem submit_saves (now : string) f s
    (Hname : trim (PrizeFormModal.name f) <> "")
    (Hidle : PrizeFormModal.isProcessingImage f = false) :
  let saved (i : string) :=
    mkPrize i (PrizeFormModal.name f) (PrizeFormModal.quantity f)
      (PrizeFormModal.acquisitionDate f) (PrizeFormModal.category f)
      (PrizeFormModal.manufacturer f)
      (Some (PrizeFormModal.photo f)) (Some (PrizeFormModal.notes f)) in
  App.isModalOpen (submit trim now f s) = false /\
  App.prizeToEdit (submit trim now f s) = None /\
  App.isDirty (submit trim now f s) = true /\
  (App.prizeToEdit s = None -> now ∉ id <$> App.prizes s ->
     App.prizes (submit trim now f s) = App.prizes s ++ [saved now]) /\
  (App.prizeToEdit s = None -> now ∈ id <$> App.prizes s ->
     length (App.prizes (submit trim now f s)) = length (App.prizes s) /\
     exists k old, App.prizes s !! k = Some old /\ id old = now /\
       App.prizes (submit trim now f s) = <[k := saved now]> (App.prizes s)) /\
  (forall k p, App.prizeToEdit s = Some p -> id p <> "" ->
     NoDup (id <$> App.prizes s) -> App.prizes s !! k = Some p ->
     App.prizes (submit trim now f s) = <[k := saved (id p)]> (App.prizes s)).
Proof.
  intros saved. unfold submit.
  rewrite (handleSubmit_passes _ now f Hname Hidle).
  cbn [App.onClose App.handleSavePrize App.isModalOpen App.prizeToEdit App.isDirty
       App.prizes App.setPrizeToEdit App.setIsModalOpen App.setIsDirty App.setPrizes].
  split; [reflexivity |]. split; [reflexivity |]. split; [reflexivity |].
  split; [| split].
  - intros -> Hnew. cbn [fmap option_fmap option_map JS.or_str].
    apply savePrize_fresh. exact Hnew.
  - intros -> Hold. cbn [fmap option_fmap option_map JS.or_str].
    fold (saved now).
    destruct (savePrize_existing (saved now) (App.prizes s) Hold)
      as (k & old & Hk & Hid & _ & Hsave).
    rewrite Hsave. split; [apply length_insert |].
    exists k, old. split; [exact Hk |]. split; [exact Hid | reflexivity].
  - intros k p -> Hid Hnd Hk. cbn [fmap option_fmap option_map].
    assert (Hor : JS.or_str (Some (id p)) now = id p).
    { unfold JS.or_str. destruct (String.eqb_spec (id p) ""); congruence. }
    rewrite Hor. fold (saved (id p)).
    apply (savePrize_unique (saved (id p)) _ k p Hnd Hk). reflexivity.
Qed.

Lemma handlePhotoChange_fields (base64 : string) (e : PrizeFormModal.ImageEvent) f :
  PrizeFormModal.quantity (PrizeFormModal.handlePhotoChange toDataURL base64 e f)
  = PrizeFormModal.quantity f.
Proof.
  unfold PrizeFormModal.handlePhotoChange.
  destruct (PrizeFormModal.resizeImage toDataURL base64 e); reflexivity.
Qed.

Lemma control_quantity c f :
  0 <= PrizeFormModal.quantity f ->
  (forall v, quantity_input c = Some v -> 0 <= v) ->
  0 <= PrizeFormModal.quantity (PrizeFormModal.control toDataURL c f).
Proof.
  intros Hf Hc.
  destruct c as [[p|] today | v | v | v | | v | | v | base64 e | | v];
    cbn [PrizeFormModal.control]; try exact Hf.
  - cbn [PrizeFormModal.openForm PrizeFormModal.quantity fmap option_fmap option_map].
    pose proof (Hc (quantity p) eq_refl) as Hp. unfold JS.or_num.
    destruct (Z.eqb_spec (quantity p) 0); lia.
  - cbn. lia.
  - cbn. lia.
  - exact (Hc v eq_refl).
  - cbn. lia.
  - rewrite handlePhotoChange_fields. exact Hf.
Qed.

(** X12. The quantity of the form is never negative unless a negative
    one is typed or comes with the record edited: the [-] button stops at
    0, wherever it starts from, and with it the quantity of the record a
    submit hands over is not negative either. *)
Theorem form_quantity_not_negative
    (cs : list PrizeFormModal.Control) f (prizeToEdit : option Prize) (now : string)
    (Hf : 0 <= PrizeFormModal.quantity f)
    (Hcs : Forall (fun c => forall v, quantity_input c = Some v -> 0 <= v) cs) :
  0 <= PrizeFormModal.quantity (controls toDataURL cs f) /\
  (forall saved,
     PrizeFormModal.handleSubmit trim prizeToEdit now (controls toDataURL cs f)
       = Some saved -> 0 <= quantity saved) /\
  (forall f', 0 <= PrizeFormModal.quantity (PrizeFormModal.decrement f')).
Proof.
  assert (Hrun : 0 <= PrizeFormModal.quantity (controls toDataURL cs f)).
  { revert f Hf. unfold controls.
    induction Hcs as [|c cs Hc Hcs IH]; intros f Hf; [exact Hf |].
    cbn [fold_left]. apply IH, control_quantity; assumption. }
  split; [exact Hrun |]. split.
  - intros saved. unfold PrizeFormModal.handleSubmit.
    destruct (_ || _); [discriminate |]. intros [= <-]. exact Hrun.
  - intros f'. cbn. lia.
Qed.

Lemma control_processing c f :
  PrizeFormModal.isProcessingImage f = true -> settles toDataURL c = false ->
  PrizeFormModal.isProcessingImage (PrizeFormModal.control toDataURL c f) = true.
Proof.
  intros Hf Hc.
  destruct c as [edit today | v | v | v | | v | | v | base64 [w h|] | | v];
    cbn [PrizeFormModal.control]; try exact Hf; try reflexivity.
  cbn [settles] in Hc.
  unfold PrizeFormModal.handlePhotoChange, PrizeFormModal.resizeImage.
  destruct (PrizeFormModal.canvasSize w h) as [w' h']. cbn [fst snd] in Hc.
  destruct (toDataURL base64 w' h'); [discriminate | reflexivity].
Qed.

(** X13. Once an image is being processed, the form stays so until a
    photo is chosen whose image loads and is encoded: no other control
    clears the flag, not the opening of the form on another record
    either, and until then every submit is dropped and leaves the
    component as it is. *)
Theorem processing_persists
    (cs : list PrizeFormModal.Control) f (prizeToEdit : option Prize) (now : string) s
    (Hbusy : PrizeFormModal.isProcessingImage f = true)
    (Hcs : Forall (fun c => settles toDataURL c = false) cs) :
  PrizeFormModal.isProcessingImage (controls toDataURL cs f) = true /\
  PrizeFormModal.handleSubmit trim prizeToEdit now (controls toDataURL cs f) = None /\
  submit trim now (controls toDataURL cs f) s = s.
Proof.
  assert (Hrun : PrizeFormModal.isProcessingImage (controls toDataURL cs f) = true).
  { revert f Hbusy. unfold controls.
    induction Hcs as [|c cs Hc Hcs IH]; intros f Hbusy; [exact Hbusy |].
    cbn [fold_left]. apply IH, control_processing; assumption. }
  assert (Hsubmit : forall edit,
    PrizeFormModal.handleSubmit trim edit now (controls toDataURL cs f) = None).
  { intros edit. unfold PrizeFormModal.handleSubmit.
    rewrite Hrun, orb_true_r. reflexivity. }
  split; [exact Hrun |]. split; [apply Hsubmit |].
  unfold submit. rewrite Hsubmit. reflexivity.
Qed.

End FormRuns.

(** The add button on the sample, the form opened, a name typed and the
    form submitted: the record comes last, with the defaults of the form. *)
Lemma submit_saves_witness :
  App.prizes
    (submit (fun v => v) "1700000000003"
       (controls (fun _ _ _ => None)
          [PrizeFormModal.Opened None "2024-03-02"; PrizeFormModal.NameTyped "Key ring"]
          PrizeFormModal.initialForm)
       (App.onAdd (App.setPrizes sample (App.initial None))))
  = sample ++ [mkPrize "1700000000003" "Key ring" 1 "2024-03-02" "その他" "指定なし"
                 (Some "") (Some "")].
Proof.
  refine (proj1 (proj2 (proj2 (proj2
    (submit_saves (fun v => v) "1700000000003"
       (controls (fun _ _ _ => None)
          [PrizeFormModal.Opened None "2024-03-02"; PrizeFormModal.NameTyped "Key ring"]
          PrizeFormModal.initialForm)
       (App.onAdd (App.setPrizes sample (App.initial None))) _ _)))) eq_refl _).
  - vm_compute. discriminate.
  - reflexivity.
  - apply (bool_decide_unpack _). vm_compute. exact I.
Defined.

(** The form opened on the first record of the sample, the [-] button
    pressed three times, the [+] button once. *)
Lemma form_quantity_not_negative_witness :
  PrizeFormModal.quantity
    (controls (fun _ _ _ => None)
       [PrizeFormModal.Opened (head sample) "2024-03-02"; PrizeFormModal.Decrement;
        PrizeFormModal.Decrement; PrizeFormModal.Decrement; PrizeFormModal.Increment]
       PrizeFormModal.initialForm) = 1 /\
  0 <= PrizeFormModal.quantity
    (controls (fun _ _ _ => None)
       [PrizeFormModal.Opened (head sample) "2024-03-02"; PrizeFormModal.Decrement;
        PrizeFormModal.Decrement; PrizeFormModal.Decrement; PrizeFormModal.Increment]
       PrizeFormModal.initialForm).
Proof.
  split; [reflexivity |].
  apply (form_quantity_not_negative (fun _ _ _ => None) (fun v => v) _ _ None "").
  - simpl. lia.
  - repeat constructor; cbn; intros v [= <-] || intros v [=]; lia.
Defined.

(** A photo whose image does not load, then the form closed and opened
    again for a new record, a name typed and the photo removed: the
    submit is dropped. *)
Lemma processing_persists_witness :
  submit (fun v => v) "1700000000003"
    (controls (fun _ _ _ => None)
       [PrizeFormModal.Opened None "2024-03-02"; PrizeFormModal.NameTyped "Key ring";
        PrizeFormModal.PhotoRemoved]
       (PrizeFormModal.handlePhotoChange (fun _ _ _ => None) "data:text/plain;base64,QQ=="
          PrizeFormModal.onerror PrizeFormModal.initialForm))
    (App.onAdd (App.setPrizes sample (App.initial None)))
  = App.onAdd (App.setPrizes sample (App.initial None)).
Proof.
  apply (processing_persists (fun _ _ _ => None) (fun v => v) _ _ None).
  - reflexivity.
  - repeat constructor.
Defined.

(** ** The orders by name *)

Section NameTies.

Variable toLowerCase : string -> string.
Variable localeCompare : string -> string -> Z.
Variable getTime : string -> option Z.

Hypothesis localeCompare_swap :
  forall a b, localeCompare a b < 0 <-> 0 < localeCompare b a.
Hypothesis localeCompare_trans :
  forall a b c, localeCompare a b <= 0 -> localeCompare b c <= 0 -> localeCompare a c <= 0.






End NameTies.

